(** * SWE-agent trajectory analysis: a shallow embedding of [code.py]

    The three analyses of [code.py] ([locate_reproduction_code],
    [locate_search], [locate_tool_use]) are embedded as functions of the
    trajectory, that is of the list stored under the key ['trajectory'] of
    the loaded JSON file.  Finding and reading the file is input/output and
    is not part of the embedding.

    Text is a [string] whose characters are the code points 0..255, with
    Python's classification of these code points (whitespace, word
    characters, lower-casing). *)

From Stdlib Require Import Ascii NArith Bool Lia Sorted.
From stdpp Require Import gmap strings list fin_maps sorting.

Local Open Scope N_scope.

(** ** Characters *)

(** [str.isspace], the class [\s] of [re], and the characters removed by
    [str.strip()] and [str.split()]. *)
Definition is_space (c : ascii) : bool :=
  let n := N_of_ascii c in
  ((9 <=? n) && (n <=? 13)) || ((28 <=? n) && (n <=? 32))
  || (n =? 133) || (n =? 160).

(** The class [\w] of [re] on [str] patterns: alphanumeric or underscore. *)
Definition is_word (c : ascii) : bool :=
  let n := N_of_ascii c in
  ((48 <=? n) && (n <=? 57)) || ((65 <=? n) && (n <=? 90)) || (n =? 95)
  || ((97 <=? n) && (n <=? 122))
  || (n =? 170) || (n =? 178) || (n =? 179) || (n =? 181) || (n =? 185)
  || (n =? 186) || ((188 <=? n) && (n <=? 190))
  || ((192 <=? n) && (n <=? 214)) || ((216 <=? n) && (n <=? 246))
  || (248 <=? n).

(** [str.lower] on one character. *)
Definition lower_char (c : ascii) : ascii :=
  let n := N_of_ascii c in
  if ((65 <=? n) && (n <=? 90)) || ((192 <=? n) && (n <=? 214))
     || ((216 <=? n) && (n <=? 222))
  then ascii_of_N (n + 32) else c.

Definition not_space (c : ascii) : bool := negb (is_space c).

(** The class [.] of [re] without [DOTALL]: anything but a newline. *)
Definition not_newline (c : ascii) : bool := negb (N_of_ascii c =? 10).

(** The class [[^/]]. *)
Definition not_slash (c : ascii) : bool := negb (N_of_ascii c =? 47).

Local Close Scope N_scope.

(** ** Strings *)

Definition nonempty (s : string) : bool :=
  match s with EmptyString => false | String _ _ => true end.

(** The rest of [s] after the prefix [p], when [s] starts with [p]. *)
Fixpoint strip_prefix (p s : string) : option string :=
  match p with
  | EmptyString => Some s
  | String a p' =>
      match s with
      | EmptyString => None
      | String b s' => if Ascii.eqb a b then strip_prefix p' s' else None
      end
  end.

(** [s.startswith(p)] *)
Definition startswith (p s : string) : bool :=
  match strip_prefix p s with Some _ => true | None => false end.

(** [needle in s] *)
Fixpoint contains (needle s : string) : bool :=
  startswith needle s
  || match s with
     | EmptyString => false
     | String _ s' => contains needle s'
     end.

(** [s.endswith(suf)] *)
Fixpoint endswith (suf s : string) : bool :=
  String.eqb s suf
  || match s with
     | EmptyString => false
     | String _ s' => endswith suf s'
     end.

(** [s.lower()] *)
Fixpoint lower (s : string) : string :=
  match s with
  | EmptyString => EmptyString
  | String c s' => String (lower_char c) (lower s')
  end.

Fixpoint lstrip (s : string) : string :=
  match s with
  | EmptyString => EmptyString
  | String c s' => if is_space c then lstrip s' else s
  end.

Fixpoint rstrip (s : string) : string :=
  match s with
  | EmptyString => EmptyString
  | String c s' =>
      match rstrip s' with
      | EmptyString => if is_space c then EmptyString else String c EmptyString
      | r => String c r
      end
  end.

(** [s.strip()] *)
Definition strip (s : string) : string := rstrip (lstrip s).

(** [s.split(sep)] for a non-empty separator: the pieces between the
    occurrences of [sep], found from left to right without overlap.  [skip]
    counts the characters of a separator still to be passed over, [cur] is
    the current piece, reversed. *)
Fixpoint split_go (sep : string) (skip : nat) (cur : string) (s : string)
  : list string :=
  match s with
  | EmptyString => [String.rev cur]
  | String c s' =>
      match skip with
      | S n => split_go sep n cur s'
      | O =>
          if startswith sep s
          then String.rev cur :: split_go sep (String.length sep - 1) EmptyString s'
          else split_go sep O (String c cur) s'
      end
  end.

Definition split_on (sep s : string) : list string := split_go sep O EmptyString s.

(** [s.split()]: the maximal runs of non-whitespace characters. *)
Fixpoint split_ws_go (cur : option string) (s : string) : list string :=
  match s with
  | EmptyString => option_list (String.rev <$> cur)
  | String c s' =>
      if is_space c
      then option_list (String.rev <$> cur) ++ split_ws_go None s'
      else split_ws_go (Some (String c (default EmptyString cur))) s'
  end.

Definition split_ws (s : string) : list string := split_ws_go None s.

(** The first whitespace-delimited token of [s], [""] when there is none:
    [s.split()[0] if s.split() else '']. *)
Definition first_word (s : string) : string := hd EmptyString (split_ws s).

Definition has_slash (s : string) : bool := contains "/" s.

(** [os.path.basename]: what follows the last slash. *)
Fixpoint basename (s : string) : string :=
  match s with
  | EmptyString => EmptyString
  | String _ s' => if has_slash s then basename s' else s
  end.

(** The first [n] characters of [s]. *)
Definition take_str (n : nat) (s : string) : string := String.substring 0 n s.

(** ** Regular expressions

    The fragment of Python's [re] that the patterns of [code.py] use.
    Repetition only ever applies to a character class there ([\s+], [\S+],
    [.*], [[^/]+]), which keeps the matcher structurally recursive.  The
    matcher is a backtracking one in continuation-passing style and tries
    the alternatives in the order of [re]: greedy repetition, left
    alternative first. *)

Inductive regex : Type :=
| Lit (s : string)              (* literal text *)
| Star (c : ascii -> bool)      (* c*, greedy *)
| Plus (c : ascii -> bool)      (* c+, greedy *)
| Opt (r : regex)               (* r?, greedy *)
| Alt (r1 r2 : regex)           (* r1|r2 *)
| Cat (r1 r2 : regex)           (* r1r2 *)
| WordB                         (* \b *)
| Bol                           (* ^ *)
| Eol.                          (* $ *)

Definition orelse {A} (x y : option A) : option A :=
  match x with Some _ => x | None => y end.

(** The state of a match is the character before the current position
    ([None] at the start of the text) and the text that remains. *)
Definition cont (A : Type) : Type := option ascii -> string -> option A.

Fixpoint last_char (prev : option ascii) (s : string) : option ascii :=
  match s with
  | EmptyString => prev
  | String c s' => last_char (Some c) s'
  end.

Definition word_before (prev : option ascii) : bool :=
  match prev with Some c => is_word c | None => false end.

Definition word_at (s : string) : bool :=
  match s with String c _ => is_word c | EmptyString => false end.

(** [$] without [MULTILINE]: at the end, or before a final newline. *)
Definition at_end (s : string) : bool :=
  match s with
  | EmptyString => true
  | String c EmptyString => (N_of_ascii c =? 10)%N
  | _ => false
  end.

Fixpoint star_loop {A} (c : ascii -> bool) (prev : option ascii) (s : string)
    (k : cont A) : option A :=
  match s with
  | String a s' =>
      if c a then orelse (star_loop c (Some a) s' k) (k prev s) else k prev s
  | EmptyString => k prev s
  end.

Fixpoint exec {A} (r : regex) (prev : option ascii) (s : string) (k : cont A)
  : option A :=
  match r with
  | Lit l =>
      match strip_prefix l s with
      | Some s' => k (last_char prev l) s'
      | None => None
      end
  | Star c => star_loop c prev s k
  | Plus c =>
      match s with
      | String a s' => if c a then star_loop c (Some a) s' k else None
      | EmptyString => None
      end
  | Opt r1 => orelse (exec r1 prev s k) (k prev s)
  | Alt r1 r2 => orelse (exec r1 prev s k) (exec r2 prev s k)
  | Cat r1 r2 => exec r1 prev s (fun p s' => exec r2 p s' k)
  | WordB => if xorb (word_before prev) (word_at s) then k prev s else None
  | Bol => match prev with None => k prev s | Some _ => None end
  | Eol => if at_end s then k prev s else None
  end.

Definition accept : cont unit := fun _ _ => Some tt.

Definition matches_at (r : regex) (prev : option ascii) (s : string) : bool :=
  bool_decide (is_Some (exec r prev s accept)).

(** [re.match(r, s)] as a truth value. *)
Definition re_match (r : regex) (s : string) : bool := matches_at r None s.

Fixpoint search_from (r : regex) (prev : option ascii) (s : string) : bool :=
  matches_at r prev s
  || match s with
     | EmptyString => false
     | String a s' => search_from r (Some a) s'
     end.

(** [re.search(r, s)] as a truth value. *)
Definition re_search (r : regex) (s : string) : bool := search_from r None s.

(** [a b c ...] of a pattern. *)
Fixpoint cat (rs : list regex) : regex :=
  match rs with
  | [] => Lit EmptyString
  | [r] => r
  | r :: rs' => Cat r (cat rs')
  end.

(** [(a|b|...)] of a pattern. *)
Fixpoint alt (rs : list regex) : regex :=
  match rs with
  | [] => Lit EmptyString
  | [r] => r
  | r :: rs' => Alt r (alt rs')
  end.

(** ** Steps *)

(** A field of a step record of the JSON file: missing, [null], or text. *)
Inductive field : Type :=
| Absent
| Null
| Text (s : string).

Record step : Type := { action : field; thought : field }.

(** [step.get(key, dflt)]; [None] is Python's [None]. *)
Definition get (f : field) (dflt : string) : option string :=
  match f with
  | Absent => Some dflt
  | Null => None
  | Text s => Some s
  end.

(** [v or dflt] *)
Definition or_str (v : option string) (dflt : string) : string :=
  match v with
  | Some s => if nonempty s then s else dflt
  | None => dflt
  end.

(** [enumerate(l)] *)
Definition enumerate {A} (l : list A) : list (nat * A) :=
  zip (seq 0 (length l)) l.

(** ** [locate_reproduction_code] *)

Definition filename_keywords : list string :=
  [ "reproduce"; "debug"; "test_"; "_test"; "verify"; "check"; "demo";
    "example"; "issue"; "bug"; "minimal"; "poc"; "script"; "run_"; "try_" ].

Definition bug_issue_problem_fix : regex :=
  alt [Lit "bug"; Lit "issue"; Lit "problem"; Lit "fix"].

Definition thought_patterns : list regex :=
  [ Lit "reproduce the issue";
    Lit "reproduce the bug";
    Lit "reproduce the problem";
    Lit "reproduce the error";
    cat [Lit "test"; Star not_newline; Lit "to reproduce"];
    Lit "script to reproduce";
    cat [Lit "verify the "; bug_issue_problem_fix];
    cat [Lit "test the "; bug_issue_problem_fix];
    cat [Lit "confirm the "; bug_issue_problem_fix];
    cat [Lit "create a "; alt [Lit "test "; Lit "reproduction "; Lit ""];
         Lit "script"];
    cat [Lit "let"; Opt (Lit "'"); Lit "s create a script"];
    cat [Lit "create"; Star not_newline; Lit "to test"];
    cat [Lit "create"; Star not_newline; Lit "to verify"];
    Lit "demonstrate the issue";
    cat [Lit "minimal"; Star not_newline; Lit "example"];
    Lit "test case" ].

(** [re.match(r'str_replace_editor create\s+(\S+)', action)]: the text of
    group 1 when the pattern matches at the start of [action].  The group is
    what [\S+] consumed, the difference between the text before and after
    it. *)
Definition created_filepath (action : string) : option string :=
  exec (cat [Lit "str_replace_editor create"; Plus is_space]) None action
    (fun p rest =>
       exec (Plus not_space) p rest
         (fun _ rest' =>
            Some (take_str (String.length rest - String.length rest') rest))).

(** [r'^/testbed/[^/]+\.py$'] *)
Definition testbed_script : regex :=
  cat [Bol; Lit "/testbed/"; Plus not_slash; Lit ".py"; Eol].

Definition excluded_filenames : list string :=
  [ "__init__.py"; "setup.py"; "conftest.py" ].

Definition filename_signal (filename_lower : string) : bool :=
  existsb (fun keyword => contains keyword filename_lower) filename_keywords.

Definition thought_signal (thought_lower : string) : bool :=
  existsb (fun pattern => re_search pattern thought_lower) thought_patterns.

Definition location_signal (filepath filename_lower : string) : bool :=
  re_match testbed_script filepath
  && negb (bool_decide (filename_lower ∈ excluded_filenames)).

(** The body of the loop for one step, from the test for a creation to the
    value of [is_reproduction]; the [continue]s give [false]. *)
Definition is_reproduction (action thought_lower : string) : bool :=
  if negb (contains "str_replace_editor create" action) then false
  else
    match created_filepath action with
    | None => false
    | Some filepath =>
        let filename := basename filepath in
        let filename_lower := lower filename in
        if negb (endswith ".py" filename_lower) then false
        else
          filename_signal filename_lower
          || thought_signal thought_lower
          || location_signal filepath filename_lower
    end.

(** One step of [locate_reproduction_code].  The action is read without
    [or ''], so a [null] action reaches the [in] test as [None] and raises
    [TypeError]: the result is [None] then. *)
Definition reproduction_step (st : step) : option bool :=
  let thought := or_str (get (thought st) "") "" in
  let thought_lower := lower thought in
  match get (action st) "" with
  | None => None
  | Some action => Some (is_reproduction action thought_lower)
  end.

Definition locate_reproduction_code (trajectory : list step)
  : option (list nat) :=
  foldl
    (fun acc '(step_idx, st) =>
       reproduction_steps ← acc;
       flagged ← reproduction_step st;
       Some (if flagged : bool
             then reproduction_steps ++ [step_idx]
             else reproduction_steps))
    (Some []) (enumerate trajectory).

(** ** [locate_search] *)

Definition swe_agent_search_commands : list string :=
  [ "find_file"; "search_file"; "search_dir" ].

Definition bash_word (name : string) : regex :=
  cat [WordB; Lit name; Plus is_space].

Definition bash_git (sub : string) : regex :=
  cat [WordB; Lit "git"; Plus is_space; Lit sub; Plus is_space].

Definition bash_search_patterns : list regex :=
  [ bash_word "find";
    bash_word "grep";
    bash_word "cat";
    bash_word "ls";
    cat [WordB; Lit "ls"; Eol];
    bash_word "head";
    bash_word "tail";
    bash_word "less";
    bash_word "more";
    bash_word "wc";
    bash_word "awk";
    bash_word "sed";
    bash_word "rg";
    bash_word "ag";
    bash_git "show";
    bash_git "log";
    bash_git "diff" ].

Definition editor_op (op : string) : regex :=
  cat [Lit "str_replace_editor"; Plus is_space; Lit op; Plus is_space].

Definition editor_view_pattern : regex := editor_op "view".

Definition code_modification_patterns : list regex :=
  [ editor_op "str_replace";
    editor_op "create";
    editor_op "insert";
    editor_op "undo_edit" ].

Definition is_modification (action : string) : bool :=
  existsb (fun pattern => re_search pattern action) code_modification_patterns.

Definition swe_agent_tier (action : string) : bool :=
  existsb (fun cmd => startswith cmd action || contains (" " +:+ cmd) action)
    swe_agent_search_commands.

Definition bash_tier (action : string) : bool :=
  existsb (fun pattern => re_search pattern action) bash_search_patterns.

Definition is_search_step (action : string) : bool :=
  swe_agent_tier action
  || re_search editor_view_pattern action
  || bash_tier action.

(** One step of [locate_search]: [true] when the index is appended. *)
Definition search_step (st : step) : bool :=
  let action := or_str (get (action st) "") "" in
  if is_modification action then false else is_search_step action.

Definition locate_search (trajectory : list step) : list nat :=
  foldl
    (fun search_steps '(step_idx, st) =>
       if search_step st then search_steps ++ [step_idx] else search_steps)
    [] (enumerate trajectory).

(** ** [locate_tool_use] *)

Definition editor_commands : list string :=
  [ "view"; "create"; "str_replace"; "insert"; "undo_edit" ].

Definition shell_commands : list string :=
  [ "python"; "python3"; "pip"; "pip3";
    "cd"; "ls"; "cat"; "head"; "tail"; "less"; "more";
    "grep"; "find"; "sed"; "awk"; "wc";
    "echo"; "touch"; "mkdir"; "rm"; "mv"; "cp";
    "git"; "pytest"; "tox"; "make";
    "bash"; "sh"; "source"; "export" ].

(** [tool_counts[k] = tool_counts.get(k, 0) + 1] *)
Definition incr (k : string) (tool_counts : gmap string nat) : gmap string nat :=
  <[k := default 0 (tool_counts !! k) + 1]> tool_counts.

(** [rf'str_replace_editor\s+{cmd}\b'] *)
Definition editor_pattern (cmd : string) : regex :=
  cat [Lit "str_replace_editor"; Plus is_space; Lit cmd; WordB].

(** [rf'^{shell_cmd}\b|^\/{shell_cmd}\b'] *)
Definition shell_pattern (shell_cmd : string) : regex :=
  Alt (cat [Bol; Lit shell_cmd; WordB])
      (cat [Bol; Lit ("/" +:+ shell_cmd); WordB]).

(** The name a command text resolves to: the first name of
    [shell_commands] whose pattern matches, else the base name of the first
    word unless there is none or it starts with a dash.  The source has this
    code twice, for a part of a [&&] chain and for a single command. *)
Definition resolve (part : string) : option string :=
  match find (fun shell_cmd => re_search (shell_pattern shell_cmd) part)
             shell_commands with
  | Some shell_cmd => Some shell_cmd
  | None =>
      if nonempty part then
        let first_word := first_word part in
        if nonempty first_word && negb (startswith "-" first_word)
        then Some (basename first_word)
        else None
      else None
  end.

Definition count_command (tool_counts : gmap string nat) (part : string)
  : gmap string nat :=
  match resolve part with
  | Some name => incr name tool_counts
  | None => tool_counts
  end.

Definition count_editor (tool_counts : gmap string nat) (action : string)
  : gmap string nat :=
  match find (fun cmd => re_search (editor_pattern cmd) action)
             editor_commands with
  | Some cmd => incr ("str_replace_editor_" +:+ cmd) tool_counts
  | None => tool_counts
  end.

(** The text that the single-command branch resolves: the first stage when
    there is a pipe. *)
Definition first_stage (action_stripped : string) : string :=
  if contains " | " action_stripped
  then strip (hd EmptyString (split_on " | " action_stripped))
  else action_stripped.

(** The body of the loop of [locate_tool_use] for a step with action text
    [action]. *)
Definition count_action (tool_counts : gmap string nat) (action : string)
  : gmap string nat :=
  if negb (nonempty action) then tool_counts
  else if startswith "str_replace_editor" action
  then count_editor tool_counts action
  else
    let action_stripped := strip action in
    if contains " && " action_stripped
    then foldl (fun counts part => count_command counts (strip part))
               tool_counts (split_on " && " action_stripped)
    else count_command tool_counts (first_stage action_stripped).

Definition count_step (tool_counts : gmap string nat) (st : step)
  : gmap string nat :=
  count_action tool_counts (or_str (get (action st) "") "").

Definition locate_tool_use (trajectory : list step) : gmap string nat :=
  foldl count_step ∅ trajectory.

(** ** Vocabulary of the statements *)

(** Every character of [s] is in the class [c]. *)
Fixpoint all_chars (c : ascii -> bool) (s : string) : bool :=
  match s with
  | EmptyString => true
  | String a s' => c a && all_chars c s'
  end.

(** [s] begins with a character of the class [c]. *)
Definition head_in (c : ascii -> bool) (s : string) : bool :=
  match s with
  | EmptyString => false
  | String a _ => c a
  end.

(** The text of [s] before the first occurrence of [sep], all of [s] when
    there is none. *)
Fixpoint before_first (sep s : string) : string :=
  match s with
  | EmptyString => EmptyString
  | String c s' =>
      if startswith sep s then EmptyString else String c (before_first sep s')
  end.

(** The maximal run of characters of the class [c] at the start of [s]. *)
Fixpoint take_run (c : ascii -> bool) (s : string) : string :=
  match s with
  | EmptyString => EmptyString
  | String a s' => if c a then String a (take_run c s') else EmptyString
  end.

(** The indices, counted from [n], of the steps of [l] that satisfy [f]. *)
Fixpoint flagged_from (f : step -> bool) (n : nat) (l : list step) : list nat :=
  match l with
  | [] => []
  | st :: l' =>
      if f st then n :: flagged_from f (S n) l' else flagged_from f (S n) l'
  end.

(** A strictly increasing list of indices below [n]. *)
Definition increasing_below (n : nat) (l : list nat) : Prop :=
  StronglySorted lt l ∧ NoDup l ∧ Forall (fun i => 0 ≤ i < n) l.

(** The action of a step is text or missing, not [null]. *)
Definition text_action (st : step) : bool :=
  match action st with Null => false | _ => true end.

(** The action text that [locate_search] and [locate_tool_use] work on. *)
Definition action_text (st : step) : string := or_str (get (action st) "") "".

(** The lower-cased thought text that [locate_reproduction_code] works on. *)
Definition thought_text (st : step) : string :=
  lower (or_str (get (thought st) "") "").

(** The flag of a step of [locate_reproduction_code] when it does not raise. *)
Definition reproduction_flag (st : step) : bool :=
  default false (reproduction_step st).

(** A step with both fields present. *)
Definition step_of (a t : string) : step := {| action := Text a; thought := Text t |}.

(** Two fields that differ at most in that one is missing where the other
    is the empty text. *)
Inductive field_equiv : field -> field -> Prop :=
| field_same f : field_equiv f f
| field_absent_empty : field_equiv Absent (Text "")
| field_empty_absent : field_equiv (Text "") Absent.

Definition step_equiv (s1 s2 : step) : Prop :=
  field_equiv (action s1) (action s2) ∧ field_equiv (thought s1) (thought s2).

(** What follows the maximal run of characters of the class [c]. *)
Fixpoint drop_run (c : ascii -> bool) (s : string) : string :=
  match s with
  | EmptyString => EmptyString
  | String a s' => if c a then drop_run c s' else s
  end.

(** [a] is a creation of the file [fp] in the syntax that
    [locate_reproduction_code] recognises: the text
    [str_replace_editor create], whitespace, then the path [fp] as a maximal
    run of non-whitespace characters. *)
Definition create_action (a fp : string) : Prop :=
  ∃ ws rest,
    a = "str_replace_editor create" +:+ ws +:+ fp +:+ rest
    ∧ nonempty ws = true ∧ all_chars is_space ws = true
    ∧ nonempty fp = true ∧ all_chars not_space fp = true
    ∧ head_in not_space rest = false.

(** The file name ends in [.py], compared as the code does, after
    lower-casing. *)
Definition python_file (fp : string) : bool :=
  endswith ".py" (lower (basename fp)).

(** The command names of [bash_search_patterns]. *)
Definition bash_names : list string :=
  [ "find"; "grep"; "cat"; "ls"; "head"; "tail"; "less"; "more"; "wc"; "awk";
    "sed"; "rg"; "ag"; "git" ].

(** [name] occurs in [a] as a whole word in the sense of [\b]: no word
    character (letter, digit, underscore) comes right before it, and right
    after it comes a whitespace character or, for [ls] only, the end of the
    text (or its final newline). *)
Definition whole_word (name a : string) : Prop :=
  ∃ pre post,
    a = pre +:+ name +:+ post
    ∧ word_before (last_char None pre) = false
    ∧ word_at post = false
    ∧ (head_in is_space post = true ∨ (name = "ls" ∧ at_end post = true)).

(** [name] is one of the whitespace-delimited tokens of [a]. *)
Definition is_token (name a : string) : Prop := name ∈ split_ws a.

(** The pointwise sum of two tables of counts. *)
Definition madd (m1 m2 : gmap string nat) : gmap string nat :=
  union_with (fun a b => Some (a + b)) m1 m2.

(** ** Trajectory files: [find_trajectory_file] and [get_all_instance_ids]

    What the two functions read of the file system, as a snapshot:
    [os.path.isdir], [os.path.exists] and [os.listdir] ([None] when it
    raises [OSError]).  [script_dir] is the directory of the script,
    [os.path.dirname(os.path.abspath(__file__))]. *)
Record filesystem : Type := {
  isdir : string -> bool;
  exists_path : string -> bool;
  listdir : string -> option (list string) }.

(** [os.path.join(a, b)] of [posixpath]. *)
Definition path_join (a b : string) : string :=
  if startswith "/" b then b
  else if negb (nonempty a) || endswith "/" a then a +:+ b
  else a +:+ "/" +:+ b.

(** [f'{instance_id}.traj'] *)
Definition traj_name (instance_id : string) : string := instance_id +:+ ".traj".

Definition search_dirs (script_dir : string) : list string :=
  [ path_join script_dir "claude-sonnet-trajs";
    path_join script_dir "Qwen-2.5-Coder-Instruct-trajs" ].

(** The fallback loop of [find_trajectory_file] over [search_dirs]. *)
Fixpoint find_in_dirs (fs : filesystem) (instance_id : string)
    (dirs : list string) : option string :=
  match dirs with
  | [] => None
  | search_dir :: dirs' =>
      let sub_instance_dir := path_join search_dir instance_id in
      if isdir fs sub_instance_dir then
        let traj_pattern := path_join sub_instance_dir (traj_name instance_id) in
        if exists_path fs traj_pattern then Some traj_pattern
        else find_in_dirs fs instance_id dirs'
      else find_in_dirs fs instance_id dirs'
  end.

Definition find_trajectory_file (fs : filesystem) (script_dir instance_id : string)
  : option string :=
  let instance_dir := path_join script_dir instance_id in
  let in_instance_dir :=
    if isdir fs instance_dir then
      let traj_file := path_join instance_dir (traj_name instance_id) in
      if exists_path fs traj_file then Some traj_file else None
    else None in
  match in_instance_dir with
  | Some traj_file => Some traj_file
  | None =>
      let traj_file := path_join script_dir (traj_name instance_id) in
      if exists_path fs traj_file then Some traj_file
      else find_in_dirs fs instance_id (search_dirs script_dir)
  end.

(** [os.path.exists(os.path.join(item_path, f'{item}.traj'))] *)
Definition has_traj_file (fs : filesystem) (dir item : string) : bool :=
  exists_path fs (path_join (path_join dir item) (traj_name item)).

(** The first loop of [get_all_instance_ids], over the script directory. *)
Definition root_instance_ids (fs : filesystem) (script_dir : string)
    (items : list string) : list string :=
  List.filter
    (fun item =>
       isdir fs (path_join script_dir item) && contains "__" item
       && has_traj_file fs script_dir item)
    items.

(** The fallback loop of [get_all_instance_ids] over [search_dirs]. *)
Fixpoint fallback_instance_ids (fs : filesystem) (dirs : list string)
    (instance_ids : list string) : option (list string) :=
  match dirs with
  | [] => Some instance_ids
  | search_dir :: dirs' =>
      if negb (exists_path fs search_dir)
      then fallback_instance_ids fs dirs' instance_ids
      else
        items ← listdir fs search_dir;
        fallback_instance_ids fs dirs'
          (instance_ids
           ++ List.filter
                (fun item =>
                   isdir fs (path_join search_dir item)
                   && has_traj_file fs search_dir item)
                items)
  end.

(** [sorted(instance_ids)]: ascending in the order of [str], the
    lexicographic order of the code points. *)
Definition sorted (l : list string) : list string := merge_sort String.le l.

(** [None] when a directory cannot be listed and [os.listdir] raises. *)
Definition get_all_instance_ids (fs : filesystem) (script_dir : string)
  : option (list string) :=
  items ← listdir fs script_dir;
  let instance_ids := root_instance_ids fs script_dir items in
  instance_ids ←
    (if bool_decide (instance_ids = [])
     then fallback_instance_ids fs (search_dirs script_dir) instance_ids
     else Some instance_ids);
  Some (sorted instance_ids).

(** ** Further vocabulary *)

(** A field that every classifier reads as the empty text where it reads it
    through [or '']: missing, [null] or empty. *)
Definition blank (f : field) : bool :=
  match f with
  | Absent | Null => true
  | Text s => negb (nonempty s)
  end.

(** Two fields that are equal or both blank. *)
Definition blank_equiv (f g : field) : Prop := f = g ∨ (blank f = true ∧ blank g = true).

(** The sum of all counts of a table. *)
Definition total_count (m : gmap string nat) : nat :=
  map_fold (fun _ v acc => v + acc) 0 m.

(** The number of parts of the [&&] chain of the stripped action text. *)
Definition chain_parts (st : step) : nat :=
  length (split_on " && " (strip (action_text st))).

(** The texts of a pattern built from literals, options, alternatives and
    concatenations only; [None] for a pattern with a repetition or an
    assertion. *)
Fixpoint words (r : regex) : option (list string) :=
  match r with
  | Lit l => Some [l]
  | Opt r1 => ws ← words r1; Some (ws ++ [EmptyString])
  | Alt r1 r2 => ws1 ← words r1; ws2 ← words r2; Some (ws1 ++ ws2)
  | Cat r1 r2 =>
      ws1 ← words r1; ws2 ← words r2;
      Some (w1 ← ws1; w2 ← ws2; [w1 +:+ w2])
  | _ => None
  end.

(** The phrases that the patterns of [thought_patterns] without [.*] stand
    for, alternatives and options written out. *)
Definition thought_phrases : list string :=
  [ "reproduce the issue"; "reproduce the bug"; "reproduce the problem";
    "reproduce the error"; "script to reproduce";
    "verify the bug"; "verify the issue"; "verify the problem"; "verify the fix";
    "test the bug"; "test the issue"; "test the problem"; "test the fix";
    "confirm the bug"; "confirm the issue"; "confirm the problem";
    "confirm the fix";
    "create a test script"; "create a reproduction script"; "create a script";
    "let's create a script"; "lets create a script";
    "demonstrate the issue"; "test case" ].

(** The patterns of [thought_patterns] of the form [a.*b], as pairs. *)
Definition thought_gaps : list (string * string) :=
  [ ("test", "to reproduce"); ("create", "to test"); ("create", "to verify");
    ("minimal", "example") ].

(** [s] contains [a], then on the same line [b]: what [a.*b] searches. *)
Definition gap_match (a b s : string) : Prop :=
  ∃ pre mid post,
    s = pre +:+ a +:+ mid +:+ b +:+ post ∧ all_chars not_newline mid = true.

(** The names of [bash_search_patterns] that are followed by [\s+] only. *)
Definition bash_simple_names : list string :=
  [ "find"; "grep"; "cat"; "ls"; "head"; "tail"; "less"; "more"; "wc"; "awk";
    "sed"; "rg"; "ag" ].

(** [fp] is a [.py] file directly under [/testbed/]. *)
Definition testbed_root_file (fp : string) : Prop :=
  ∃ stem, fp = "/testbed/" +:+ stem +:+ ".py"
          ∧ nonempty stem = true ∧ all_chars not_slash stem = true.

(** [^c\b] at the start of [s]: [s] starts with [c] and a word boundary
    follows. *)
Definition anchored (c s : string) : bool :=
  match strip_prefix c s with
  | Some r => xorb (word_before (last_char None c)) (word_at r)
  | None => false
  end.

(** A small file system for the examples: two instance folders in the
    script directory [/w], one of them without its trajectory file, and one
    folder in the first fallback directory. *)
Definition example_fs : filesystem := {|
  isdir p :=
    existsb (String.eqb p)
      [ "/w"; "/w/b__2"; "/w/a__1"; "/w/claude-sonnet-trajs";
        "/w/claude-sonnet-trajs/c__3" ];
  exists_path p :=
    existsb (String.eqb p)
      [ "/w"; "/w/b__2"; "/w/a__1"; "/w/b__2/b__2.traj"; "/w/notes.txt";
        "/w/claude-sonnet-trajs"; "/w/claude-sonnet-trajs/c__3";
        "/w/claude-sonnet-trajs/c__3/c__3.traj" ];
  listdir p :=
    if String.eqb p "/w"
    then Some [ "notes.txt"; "b__2"; "a__1"; "claude-sonnet-trajs" ]
    else if String.eqb p "/w/claude-sonnet-trajs" then Some [ "c__3" ]
    else None |}.

(** ** Strings: basic facts *)

Lemma sapp_nil_l (s : string) : "" +:+ s = s.
Proof. reflexivity. Qed.

Lemma sapp_cons (c : ascii) (s t : string) :
  String c s +:+ t = String c (s +:+ t).
Proof. reflexivity. Qed.

Lemma sapp_nil_r (s : string) : s +:+ "" = s.
Proof. induction s as [|c s IH]; [done|]. by rewrite sapp_cons, IH. Qed.

Lemma sapp_assoc (s t u : string) : (s +:+ t) +:+ u = s +:+ t +:+ u.
Proof. induction s as [|c s IH]; [done|]. by rewrite !sapp_cons, IH. Qed.

Lemma slength_app (s t : string) :
  String.length (s +:+ t) = String.length s + String.length t.
Proof. induction s as [|c s IH]; [done|]. rewrite sapp_cons. simpl. by rewrite IH. Qed.

Lemma nonempty_true (s : string) : nonempty s = true ↔ s ≠ "".
Proof. destruct s; simpl; split; congruence. Qed.

Lemma nonempty_false (s : string) : nonempty s = false ↔ s = "".
Proof. destruct s; simpl; split; congruence. Qed.

Lemma strip_prefix_app (p s : string) : strip_prefix p (p +:+ s) = Some s.
Proof.
  induction p as [|a p IH]; [done|].
  rewrite sapp_cons. simpl. by rewrite Ascii.eqb_refl.
Qed.

Lemma strip_prefix_Some (p s r : string) :
  strip_prefix p s = Some r → s = p +:+ r.
Proof.
  revert s. induction p as [|a p IH]; intros s H; simpl in H.
  - by injection H as ->.
  - destruct s as [|b s]; [done|].
    destruct (Ascii.eqb_spec a b) as [->|]; [|done].
    rewrite sapp_cons. f_equal. by apply IH.
Qed.

Lemma startswith_app (p s : string) : startswith p (p +:+ s) = true.
Proof. unfold startswith. by rewrite strip_prefix_app. Qed.

Lemma startswith_true (p s : string) :
  startswith p s = true ↔ ∃ r, s = p +:+ r.
Proof.
  unfold startswith. split.
  - destruct (strip_prefix p s) as [r|] eqn:E; [|done].
    intros _. exists r. by apply strip_prefix_Some.
  - intros [r ->]. by rewrite strip_prefix_app.
Qed.

Lemma contains_true (n s : string) :
  contains n s = true ↔ ∃ pre post, s = pre +:+ n +:+ post.
Proof.
  split.
  - induction s as [|c s IH]; simpl; intros H.
    + apply orb_true_iff in H as [H|H]; [|done].
      apply startswith_true in H as [r ->]. by exists "", r.
    + apply orb_true_iff in H as [H|H].
      * apply startswith_true in H as [r ->]. by exists "", r.
      * destruct (IH H) as (pre & post & ->). by exists (String c pre), post.
  - intros (pre & post & ->). induction pre as [|c pre IH].
    + rewrite sapp_nil_l. destruct (n +:+ post) eqn:E; simpl; rewrite <- ?E;
        by rewrite startswith_app.
    + rewrite sapp_cons. simpl. rewrite IH. apply orb_true_r.
Qed.

Lemma contains_prefix (n s t : string) :
  contains n s = true → contains n (s +:+ t) = true.
Proof.
  rewrite !contains_true. intros (pre & post & ->).
  exists pre, (post +:+ t). by rewrite !sapp_assoc.
Qed.

Lemma startswith_contains (p s : string) :
  startswith p s = true → contains p s = true.
Proof.
  rewrite startswith_true, contains_true. intros [r ->]. by exists "", r.
Qed.

Lemma all_chars_app (c : ascii -> bool) (s t : string) :
  all_chars c (s +:+ t) = all_chars c s && all_chars c t.
Proof.
  induction s as [|a s IH]; [done|].
  rewrite sapp_cons. simpl. by rewrite IH, andb_assoc.
Qed.

Lemma last_char_app (prev : option ascii) (s t : string) :
  last_char prev (s +:+ t) = last_char (last_char prev s) t.
Proof.
  revert prev. induction s as [|a s IH]; intros prev; [done|].
  rewrite sapp_cons. simpl. apply IH.
Qed.

Lemma lower_app (s t : string) : lower (s +:+ t) = lower s +:+ lower t.
Proof. induction s as [|a s IH]; [done|]. rewrite sapp_cons. simpl. by rewrite IH. Qed.

Lemma endswith_app (suf s : string) : endswith suf (s +:+ suf) = true.
Proof.
  induction s as [|a s IH].
  - rewrite sapp_nil_l. destruct suf; cbn [endswith]; by rewrite String.eqb_refl.
  - rewrite sapp_cons. cbn [endswith]. rewrite IH. apply orb_true_r.
Qed.

Lemma endswith_true (suf s : string) :
  endswith suf s = true → ∃ pre, s = pre +:+ suf.
Proof.
  induction s as [|a s IH]; cbn [endswith]; intros H.
  - apply orb_true_iff in H as [H|H]; [|done].
    apply String.eqb_eq in H as <-. by exists "".
  - apply orb_true_iff in H as [H|H].
    + apply String.eqb_eq in H as <-. by exists "".
    + destruct (IH H) as [pre ->]. by exists (String a pre).
Qed.

(** ** The matcher: repetition and search *)

Section Matcher.
Context {A : Type}.
Implicit Types (k : cont A) (c : ascii -> bool) (prev : option ascii).

Lemma orelse_Some_l (x y : option A) (r : A) : x = Some r → orelse x y = Some r.
Proof. by intros ->. Qed.

Lemma orelse_is_Some (x y : option A) :
  is_Some (orelse x y) ↔ is_Some x ∨ is_Some y.
Proof.
  destruct x as [a|]; simpl; split; eauto.
  intros [H|H]; [by destruct H|done].
Qed.

(** A run of class characters followed by a text that does not continue
    the run is consumed whole when the continuation then succeeds. *)
Lemma star_loop_all c prev pre post k r :
  all_chars c pre = true → head_in c post = false →
  k (last_char prev pre) post = Some r →
  star_loop c prev (pre +:+ post) k = Some r.
Proof.
  revert prev. induction pre as [|a pre IH]; intros prev Hall Hpost Hk.
  - rewrite sapp_nil_l. simpl in Hk.
    destruct post as [|b post]; [done|]. simpl in *. by rewrite Hpost.
  - rewrite sapp_cons. simpl in *.
    apply andb_true_iff in Hall as [-> Hall].
    apply orelse_Some_l. by apply IH.
Qed.

(** Backtracking finds any split whose continuation succeeds. *)
Lemma star_loop_complete c prev pre post k :
  all_chars c pre = true →
  is_Some (k (last_char prev pre) post) →
  is_Some (star_loop c prev (pre +:+ post) k).
Proof.
  revert prev. induction pre as [|a pre IH]; intros prev Hall Hk.
  - rewrite sapp_nil_l. simpl in Hk.
    destruct post as [|b post]; [done|]. simpl.
    destruct (c b); [|done]. apply orelse_is_Some. by right.
  - rewrite sapp_cons. simpl in *.
    apply andb_true_iff in Hall as [-> Hall].
    apply orelse_is_Some. left. by apply IH.
Qed.

(** A successful repetition consumed some run of class characters. *)
Lemma star_loop_sound c prev s k r :
  star_loop c prev s k = Some r →
  ∃ pre post, s = pre +:+ post ∧ all_chars c pre = true
              ∧ k (last_char prev pre) post = Some r.
Proof.
  revert prev. induction s as [|a s IH]; intros prev H; simpl in H.
  - by exists "", "".
  - destruct (c a) eqn:Ha.
    + destruct (star_loop c (Some a) s k) as [r'|] eqn:E; simpl in H.
      * injection H as ->. destruct (IH _ E) as (pre & post & -> & Hall & Hk).
        exists (String a pre), post. simpl. by rewrite Ha.
      * by exists "", (String a s).
    + by exists "", (String a s).
Qed.

Lemma plus_sound c prev s k r :
  exec (Plus c) prev s k = Some r →
  ∃ a pre post, s = String a (pre +:+ post) ∧ c a = true
                ∧ all_chars c pre = true
                ∧ k (last_char (Some a) pre) post = Some r.
Proof.
  destruct s as [|a s]; simpl; [done|].
  destruct (c a) eqn:Ha; [|done]. intros H.
  destruct (star_loop_sound _ _ _ _ _ H) as (pre & post & -> & Hall & Hk).
  by exists a, pre, post.
Qed.

Lemma lit_sound l prev s k r :
  exec (Lit l) prev s k = Some r →
  ∃ s', s = l +:+ s' ∧ k (last_char prev l) s' = Some r.
Proof.
  simpl. destruct (strip_prefix l s) as [s'|] eqn:E; [|done].
  intros H. exists s'. split; [by apply strip_prefix_Some|done].
Qed.

Lemma lit_app l prev s k : exec (Lit l) prev (l +:+ s) k = k (last_char prev l) s.
Proof. simpl. by rewrite strip_prefix_app. Qed.
End Matcher.

(** A successful search matched at the start of some suffix. *)
Lemma search_from_sound (r : regex) (prev : option ascii) (s : string) :
  search_from r prev s = true →
  ∃ pre rest, s = pre +:+ rest ∧ matches_at r (last_char prev pre) rest = true.
Proof.
  revert prev. induction s as [|a s IH]; intros prev H; simpl in H.
  - apply orb_true_iff in H as [H|H]; [|done]. by exists "", "".
  - apply orb_true_iff in H as [H|H].
    + by exists "", (String a s).
    + destruct (IH _ H) as (pre & rest & -> & Hm).
      by exists (String a pre), rest.
Qed.

Lemma search_from_complete (r : regex) (prev : option ascii) (pre rest : string) :
  matches_at r (last_char prev pre) rest = true →
  search_from r prev (pre +:+ rest) = true.
Proof.
  revert prev. induction pre as [|a pre IH]; intros prev H.
  - rewrite sapp_nil_l. simpl in H. destruct rest; simpl; by rewrite H.
  - rewrite sapp_cons. simpl. rewrite (IH _ H). apply orb_true_r.
Qed.

Lemma matches_at_true (r : regex) (prev : option ascii) (s : string) :
  matches_at r prev s = true ↔ exec r prev s accept = Some tt.
Proof.
  unfold matches_at. rewrite bool_decide_eq_true. split.
  - intros [[] H]. done.
  - intros ->. by eexists.
Qed.

(** ** The loops over [enumerate(trajectory)] *)

Lemma enumerate_from_cons {X} (n : nat) (x : X) (l : list X) :
  zip (seq n (length (x :: l))) (x :: l) = (n, x) :: zip (seq (S n) (length l)) l.
Proof. reflexivity. Qed.

Lemma search_loop (f : step -> bool) (n : nat) (l : list step) (acc : list nat) :
  foldl (fun search_steps '(step_idx, st) =>
           if f st then search_steps ++ [step_idx] else search_steps)
        acc (zip (seq n (length l)) l)
  = acc ++ flagged_from f n l.
Proof.
  revert n acc. induction l as [|st l IH]; intros n acc.
  - simpl. by rewrite app_nil_r.
  - rewrite enumerate_from_cons. cbn [foldl flagged_from].
    rewrite IH. destruct (f st); [|done]. by rewrite <- app_assoc.
Qed.

Lemma locate_search_flagged (trajectory : list step) :
  locate_search trajectory = flagged_from search_step 0 trajectory.
Proof. unfold locate_search, enumerate. by rewrite search_loop. Qed.

Lemma reproduction_step_text (st : step) :
  reproduction_step st = if text_action st then Some (reproduction_flag st) else None.
Proof.
  unfold reproduction_flag, reproduction_step, text_action.
  by destruct (action st).
Qed.

Lemma reproduction_loop (n : nat) (l : list step) (acc : option (list nat)) :
  foldl (fun acc '(step_idx, st) =>
           reproduction_steps ← acc;
           flagged ← reproduction_step st;
           Some (if flagged : bool
                 then reproduction_steps ++ [step_idx]
                 else reproduction_steps))
        acc (zip (seq n (length l)) l)
  = if forallb text_action l
    then steps ← acc; Some (steps ++ flagged_from reproduction_flag n l)
    else None.
Proof.
  revert n acc. induction l as [|st l IH]; intros n acc.
  - simpl. destruct acc; simpl; by rewrite ?app_nil_r.
  - rewrite enumerate_from_cons. cbn [foldl flagged_from forallb].
    rewrite IH, reproduction_step_text.
    destruct (text_action st); simpl.
    + destruct (forallb text_action l); [|done].
      destruct acc as [steps|]; simpl; [|done].
      destruct (reproduction_flag st); [|done]. by rewrite <- app_assoc.
    + destruct (forallb text_action l); [|done]. by destruct acc.
Qed.

Lemma locate_reproduction_code_flagged (trajectory : list step) :
  locate_reproduction_code trajectory
  = if forallb text_action trajectory
    then Some (flagged_from reproduction_flag 0 trajectory)
    else None.
Proof. unfold locate_reproduction_code, enumerate. by rewrite reproduction_loop. Qed.

Lemma flagged_from_elem (f : step -> bool) (n : nat) (l : list step) (i : nat) :
  i ∈ flagged_from f n l ↔ ∃ st, n ≤ i ∧ l !! (i - n) = Some st ∧ f st = true.
Proof.
  revert n. induction l as [|st l IH]; intros n; simpl.
  - split; [by intros ?%elem_of_nil|]. by intros (? & _ & ? & _).
  - assert (Hrec : i ∈ flagged_from f (S n) l
                   ↔ ∃ st', S n ≤ i ∧ (st :: l) !! (i - n) = Some st' ∧ f st' = true).
    { rewrite IH. split; intros (st' & Hle & Hl & Hf); exists st'.
      - replace (i - n) with (S (i - S n)) by lia. done.
      - replace (i - n) with (S (i - S n)) in Hl by lia. done. }
    destruct (f st) eqn:Hf.
    + rewrite elem_of_cons, Hrec. split.
      * intros [->|(st' & Hle & Hl & Hf')].
        -- exists st. rewrite Nat.sub_diag. done.
        -- exists st'. split; [lia|done].
      * intros (st' & Hle & Hl & Hf').
        destruct (decide (i = n)) as [->|Hne]; [by left|].
        right. exists st'. split; [lia|done].
    + rewrite Hrec. split.
      * intros (st' & Hle & Hl & Hf'). exists st'. split; [lia|done].
      * intros (st' & Hle & Hl & Hf').
        destruct (decide (i = n)) as [->|Hne].
        -- rewrite Nat.sub_diag in Hl. simpl in Hl. congruence.
        -- exists st'. split; [lia|done].
Qed.

Lemma flagged_from_bounds (f : step -> bool) (n : nat) (l : list step) :
  Forall (fun i => n ≤ i < n + length l) (flagged_from f n l).
Proof.
  revert n. induction l as [|st l IH]; intros n; simpl; [constructor|].
  assert (Forall (fun i => n ≤ i < n + S (length l)) (flagged_from f (S n) l)).
  { eapply Forall_impl; [apply IH|]. simpl. lia. }
  destruct (f st); [constructor; [lia|done]|done].
Qed.

Lemma flagged_from_sorted (f : step -> bool) (n : nat) (l : list step) :
  StronglySorted lt (flagged_from f n l).
Proof.
  revert n. induction l as [|st l IH]; intros n; simpl; [constructor|].
  destruct (f st); [|apply IH].
  constructor; [apply IH|].
  eapply Forall_impl; [apply flagged_from_bounds|]. simpl. lia.
Qed.

Lemma sorted_lt_NoDup (l : list nat) : StronglySorted lt l → NoDup l.
Proof.
  induction 1 as [|a l Hs IH Hall]; constructor; [|done].
  intros Hin. rewrite Forall_forall in Hall. specialize (Hall _ Hin). lia.
Qed.

Lemma flagged_from_increasing (f : step -> bool) (l : list step) :
  increasing_below (length l) (flagged_from f 0 l).
Proof.
  split; [apply flagged_from_sorted|].
  split; [apply sorted_lt_NoDup, flagged_from_sorted|].
  eapply Forall_impl; [apply flagged_from_bounds|]. simpl. lia.
Qed.

(** ** Indices returned by the two classifiers *)

Lemma locate_search_elem (trajectory : list step) (i : nat) :
  i ∈ locate_search trajectory
  ↔ ∃ st, trajectory !! i = Some st ∧ search_step st = true.
Proof.
  rewrite locate_search_flagged, flagged_from_elem, Nat.sub_0_r.
  split; intros (st & H); exists st; [tauto|]. split; [lia|tauto].
Qed.

Lemma locate_reproduction_code_elem (trajectory : list step) (l : list nat) (i : nat) :
  locate_reproduction_code trajectory = Some l →
  i ∈ l ↔ ∃ st, trajectory !! i = Some st ∧ reproduction_flag st = true.
Proof.
  rewrite locate_reproduction_code_flagged.
  destruct (forallb text_action trajectory); [|done]. intros [= <-].
  rewrite flagged_from_elem, Nat.sub_0_r.
  split; intros (st & H); exists st; [tauto|]. split; [lia|tauto].
Qed.

Lemma locate_reproduction_code_total (trajectory : list step) :
  forallb text_action trajectory = true →
  locate_reproduction_code trajectory
  = Some (flagged_from reproduction_flag 0 trajectory).
Proof. intros H. by rewrite locate_reproduction_code_flagged, H. Qed.

(** C3: for every trajectory, the index list returned by the reproduction
    classifier (it returns one whenever no action is [null], and whenever it
    returns one) and the index list returned by the search classifier are
    strictly increasing, without duplicates, and every index [i] satisfies
    [0 <= i < len(trajectory)]. *)
Theorem C3_indices_increasing_in_range (trajectory : list step) :
  (forallb text_action trajectory = true →
   ∃ l, locate_reproduction_code trajectory = Some l
        ∧ increasing_below (length trajectory) l)
  ∧ (∀ l, locate_reproduction_code trajectory = Some l →
          increasing_below (length trajectory) l)
  ∧ increasing_below (length trajectory) (locate_search trajectory).
Proof.
  split; [|split].
  - intros H. eexists. split; [by apply locate_reproduction_code_total|].
    apply flagged_from_increasing.
  - intros l. rewrite locate_reproduction_code_flagged.
    destruct (forallb text_action trajectory); [|done]. intros [= <-].
    apply flagged_from_increasing.
  - rewrite locate_search_flagged. apply flagged_from_increasing.
Qed.

Lemma C3_witness :
  increasing_below 3 [0; 2] ∧ increasing_below 3 [1].
Proof.
  pose (t := [ step_of "str_replace_editor create /testbed/reproduce_bug.py" "";
               step_of "grep -rn TODO ." "";
               {| action := Text "str_replace_editor create /testbed/t.py";
                  thought := Absent |} ]).
  destruct (C3_indices_increasing_in_range t) as (Hex & Hall & Hs).
  split.
  - destruct (Hex eq_refl) as (l & Hl & Hinc).
    apply (Hall [0; 2]). vm_compute. reflexivity.
  - exact Hs.
Defined.

(** ** Modification precedence and the dedicated search commands *)

(** C2: if the action of step [i] matches one of the four modification
    patterns ([str_replace_editor] followed by [str_replace], [create],
    [insert] or [undo_edit]), then [i] is not in the result of the search
    classifier, whatever else the action contains; the action
    ["str_replace_editor create /workspace/a.py"] is excluded. *)
Theorem C2_modification_excluded :
  (∀ (trajectory : list step) (i : nat) (st : step),
      trajectory !! i = Some st →
      is_modification (action_text st) = true →
      i ∉ locate_search trajectory)
  ∧ (∀ t : field,
        locate_search
          [ {| action := Text "str_replace_editor create /workspace/a.py";
               thought := t |} ] = []).
Proof.
  split.
  - intros trajectory i st Hi Hmod Hin.
    apply locate_search_elem in Hin as (st' & Hi' & Hs).
    assert (st' = st) as -> by congruence.
    unfold search_step in Hs. fold (action_text st) in Hs.
    by rewrite Hmod in Hs.
  - intros t. by vm_compute.
Qed.

Lemma C2_witness :
  1 ∉ locate_search
        [ step_of "grep -rn TODO ." "";
          step_of "str_replace_editor str_replace /a.py --old_str 'grep x' --new_str 'find y'" "" ].
Proof.
  eapply (proj1 C2_modification_excluded); [reflexivity|].
  vm_compute. reflexivity.
Defined.

(** C10: a step that is not excluded as a modification is a search step
    whenever its action starts with [find_file], [search_file] or
    [search_dir], or contains one of these names right after a space, also
    when the name is only an argument of another command; the action
    ["echo find_file"] is classified as a search step. *)
Theorem C10_dedicated_search_commands :
  (∀ (trajectory : list step) (i : nat) (st : step) (cmd : string),
      trajectory !! i = Some st →
      is_modification (action_text st) = false →
      cmd ∈ swe_agent_search_commands →
      startswith cmd (action_text st) = true
      ∨ contains (" " +:+ cmd) (action_text st) = true →
      i ∈ locate_search trajectory)
  ∧ (∀ t : field,
        locate_search [ {| action := Text "echo find_file"; thought := t |} ] = [0]).
Proof.
  split.
  - intros trajectory i st cmd Hi Hmod Hcmd Hocc.
    apply locate_search_elem. exists st. split; [done|].
    unfold search_step. fold (action_text st). rewrite Hmod.
    unfold is_search_step.
    assert (swe_agent_tier (action_text st) = true) as ->; [|done].
    unfold swe_agent_tier. apply existsb_exists. exists cmd.
    split; [by apply list_elem_of_In|].
    apply orb_true_iff. done.
  - intros t. by vm_compute.
Qed.

Lemma C10_witness :
  1 ∈ locate_search [ step_of "ls" ""; step_of "python x.py --mode search_dir" "" ].
Proof.
  eapply (proj1 C10_dedicated_search_commands) with (cmd := "search_dir").
  - reflexivity.
  - vm_compute. reflexivity.
  - unfold swe_agent_search_commands. set_solver.
  - right. vm_compute. reflexivity.
Defined.

(** ** Missing fields *)

Lemma field_equiv_get (f g : field) : field_equiv f g → get f "" = get g "".
Proof. by destruct 1. Qed.

Lemma step_equiv_reproduction (s1 s2 : step) :
  step_equiv s1 s2 → reproduction_step s1 = reproduction_step s2.
Proof.
  intros [Ha Ht]. unfold reproduction_step.
  by rewrite (field_equiv_get _ _ Ha), (field_equiv_get _ _ Ht).
Qed.

Lemma step_equiv_search (s1 s2 : step) :
  step_equiv s1 s2 → search_step s1 = search_step s2.
Proof.
  intros [Ha Ht]. unfold search_step. by rewrite (field_equiv_get _ _ Ha).
Qed.

Lemma step_equiv_count (m : gmap string nat) (s1 s2 : step) :
  step_equiv s1 s2 → count_step m s1 = count_step m s2.
Proof.
  intros [Ha Ht]. unfold count_step. by rewrite (field_equiv_get _ _ Ha).
Qed.

Lemma step_equiv_text_action (s1 s2 : step) :
  step_equiv s1 s2 → text_action s1 = text_action s2.
Proof. intros [Ha Ht]. unfold text_action. by destruct Ha. Qed.

Lemma flagged_from_ext (f g : step -> bool) (n : nat) (t1 t2 : list step) :
  Forall2 (fun s1 s2 => f s1 = g s2) t1 t2 →
  flagged_from f n t1 = flagged_from g n t2.
Proof.
  intros H. revert n. induction H as [|s1 s2 t1 t2 Hs Ht IH]; intros n; [done|].
  simpl. rewrite Hs, IH. done.
Qed.

Lemma forallb_ext2 (f : step -> bool) (t1 t2 : list step) :
  Forall2 (fun s1 s2 => f s1 = f s2) t1 t2 → forallb f t1 = forallb f t2.
Proof. induction 1 as [|s1 s2 t1 t2 Hs Ht IH]; [done|]. simpl. by rewrite Hs, IH. Qed.

(** C8: a step record whose action or thought is missing is analysed by
    each of the three classifiers exactly as the same record with the empty
    text in that field: the results on two trajectories that differ only in
    this way are equal, and no classifier raises because of a missing field
    (the search classifier and the tool counter never raise; the reproduction
    classifier returns a result whenever no action is [null]). *)
Theorem C8_missing_field_is_empty_text (t1 t2 : list step) :
  Forall2 step_equiv t1 t2 →
  locate_reproduction_code t1 = locate_reproduction_code t2
  ∧ locate_search t1 = locate_search t2
  ∧ locate_tool_use t1 = locate_tool_use t2
  ∧ (forallb text_action t1 = true → is_Some (locate_reproduction_code t1)).
Proof.
  intros H. split; [|split; [|split]].
  - rewrite !locate_reproduction_code_flagged.
    rewrite (forallb_ext2 text_action t1 t2).
    + destruct (forallb text_action t2); [|done]. f_equal.
      apply flagged_from_ext. eapply Forall2_impl; [exact H|].
      intros s1 s2 Hs. unfold reproduction_flag.
      by rewrite (step_equiv_reproduction _ _ Hs).
    + eapply Forall2_impl; [exact H|]. apply step_equiv_text_action.
  - rewrite !locate_search_flagged. apply flagged_from_ext.
    eapply Forall2_impl; [exact H|]. apply step_equiv_search.
  - unfold locate_tool_use. generalize (∅ : gmap string nat).
    induction H as [|s1 s2 t1 t2 Hs Ht IH]; intros m; [done|].
    simpl. rewrite (step_equiv_count _ _ _ Hs). apply IH.
  - intros Ht. rewrite (locate_reproduction_code_total _ Ht). by eexists.
Qed.

Lemma C8_witness :
  locate_reproduction_code
    [ {| action := Absent; thought := Absent |};
      {| action := Text "str_replace_editor create /testbed/reproduce.py";
         thought := Absent |} ] = Some [1]
  ∧ locate_search [ {| action := Absent; thought := Absent |};
                    {| action := Text "ls"; thought := Absent |} ] = [1]
  ∧ locate_tool_use [ {| action := Absent; thought := Text "x" |} ] = ∅.
Proof.
  split; [|split].
  - etransitivity.
    + apply (C8_missing_field_is_empty_text
               [ {| action := Absent; thought := Absent |};
                 {| action := Text "str_replace_editor create /testbed/reproduce.py";
                    thought := Absent |} ]
               [ step_of "" "";
                 step_of "str_replace_editor create /testbed/reproduce.py" "" ]).
      repeat constructor.
    + vm_compute. reflexivity.
  - etransitivity.
    + apply (C8_missing_field_is_empty_text
               [ {| action := Absent; thought := Absent |};
                 {| action := Text "ls"; thought := Absent |} ]
               [ step_of "" ""; step_of "ls" "" ]).
      repeat constructor.
    + vm_compute. reflexivity.
  - etransitivity.
    + apply (C8_missing_field_is_empty_text
               [ {| action := Absent; thought := Text "x" |} ]
               [ step_of "" "x" ]).
      repeat constructor.
    + vm_compute. reflexivity.
Defined.

(** ** Counts add up *)

Lemma madd_lookup (m1 m2 : gmap string nat) (k : string) :
  default 0 (madd m1 m2 !! k) = default 0 (m1 !! k) + default 0 (m2 !! k).
Proof.
  unfold madd. rewrite lookup_union_with.
  destruct (m1 !! k), (m2 !! k); simpl; lia.
Qed.

Lemma madd_empty_r (m : gmap string nat) : madd m ∅ = m.
Proof.
  apply map_eq. intros k. unfold madd.
  rewrite lookup_union_with, lookup_empty. by destruct (m !! k).
Qed.

Lemma incr_madd (k : string) (m d : gmap string nat) :
  incr k (madd m d) = madd m (incr k d).
Proof.
  apply map_eq. intros j. unfold incr, madd.
  destruct (decide (k = j)) as [->|Hne].
  - rewrite lookup_insert_eq, !lookup_union_with, lookup_insert_eq.
    destruct (m !! j), (d !! j); simpl; f_equal; lia.
  - rewrite lookup_insert_ne, !lookup_union_with, lookup_insert_ne; done.
Qed.

Lemma count_command_madd (m d : gmap string nat) (part : string) :
  count_command (madd m d) part = madd m (count_command d part).
Proof. unfold count_command. destruct (resolve part); [apply incr_madd|done]. Qed.

Lemma count_editor_madd (m d : gmap string nat) (a : string) :
  count_editor (madd m d) a = madd m (count_editor d a).
Proof.
  unfold count_editor.
  destruct (find _ editor_commands); [apply incr_madd|done].
Qed.

Lemma count_parts_madd (m d : gmap string nat) (parts : list string) :
  foldl (fun counts part => count_command counts (strip part)) (madd m d) parts
  = madd m (foldl (fun counts part => count_command counts (strip part)) d parts).
Proof.
  revert d. induction parts as [|p parts IH]; intros d; [done|].
  simpl. by rewrite count_command_madd, IH.
Qed.

Lemma count_action_madd (m d : gmap string nat) (a : string) :
  count_action (madd m d) a = madd m (count_action d a).
Proof.
  unfold count_action.
  destruct (negb (nonempty a)); [done|].
  destruct (startswith "str_replace_editor" a); [apply count_editor_madd|].
  destruct (contains " && " (strip a));
    [apply count_parts_madd|apply count_command_madd].
Qed.

Lemma count_steps_madd (m d : gmap string nat) (t : list step) :
  foldl count_step (madd m d) t = madd m (foldl count_step d t).
Proof.
  revert d. induction t as [|st t IH]; intros d; [done|].
  simpl. unfold count_step at 2 4. by rewrite count_action_madd, IH.
Qed.

Lemma locate_tool_use_app (t1 t2 : list step) :
  locate_tool_use (t1 ++ t2) = madd (locate_tool_use t1) (locate_tool_use t2).
Proof.
  unfold locate_tool_use. rewrite foldl_app.
  rewrite <- (madd_empty_r (foldl count_step ∅ t1)) at 1.
  apply count_steps_madd.
Qed.

(** C6: the action ["cd /workspace && python script.py"] contributes
    [{"cd": 1, "python": 1}], one count for each part of the [&&] chain; a
    trajectory with that action twice gives [{"cd": 2, "python": 2}]; and
    the counts of a concatenation of two trajectories are the pointwise sum
    of the counts of the two. *)
Theorem C6_counts_add_up :
  locate_tool_use [ step_of "cd /workspace && python script.py" "" ]
  = {[ "cd" := 1; "python" := 1 ]}
  ∧ locate_tool_use [ step_of "cd /workspace && python script.py" "";
                      step_of "cd /workspace && python script.py" "" ]
    = {[ "cd" := 2; "python" := 2 ]}
  ∧ (∀ (t1 t2 : list step) (k : string),
        default 0 (locate_tool_use (t1 ++ t2) !! k)
        = default 0 (locate_tool_use t1 !! k)
          + default 0 (locate_tool_use t2 !! k))
  ∧ (∀ t1 t2 : list step,
        locate_tool_use (t1 ++ t2)
        = madd (locate_tool_use t1) (locate_tool_use t2)).
Proof.
  split; [by vm_compute|]. split; [by vm_compute|]. split.
  - intros t1 t2 k. rewrite locate_tool_use_app. apply madd_lookup.
  - apply locate_tool_use_app.
Qed.

(** ** Splitting: pipe stages and first words *)

Lemma rev_app_app (s t : string) : String.rev_app s t = String.rev s +:+ t.
Proof.
  unfold String.rev. revert t. induction s as [|c s IH]; intros t; [done|].
  simpl. rewrite (IH (String c t)), (IH (String c "")).
  by rewrite sapp_assoc.
Qed.

Lemma rev_cons (c : ascii) (s : string) :
  String.rev (String c s) = String.rev s +:+ String c "".
Proof. unfold String.rev at 1. simpl. apply rev_app_app. Qed.

Lemma split_go_nonempty (sep : string) (skip : nat) (cur s : string) :
  1 ≤ length (split_go sep skip cur s).
Proof.
  revert skip cur. induction s as [|c s IH]; intros skip cur; simpl; [lia|].
  destruct skip; [|apply IH].
  destruct (startswith sep (String c s)); [simpl; lia|apply IH].
Qed.

Lemma split_go_hd (sep cur s : string) :
  hd "" (split_go sep 0 cur s) = String.rev cur +:+ before_first sep s.
Proof.
  revert cur. induction s as [|c s IH]; intros cur.
  - simpl. by rewrite sapp_nil_r.
  - cbn [split_go before_first].
    destruct (startswith sep (String c s)).
    + simpl. by rewrite sapp_nil_r.
    + rewrite IH, rev_cons, sapp_assoc. done.
Qed.

Lemma split_on_hd (sep s : string) :
  hd "" (split_on sep s) = before_first sep s.
Proof. unfold split_on. by rewrite split_go_hd. Qed.

Lemma before_first_split (sep s : string) :
  contains sep s = true →
  ∃ rest, s = before_first sep s +:+ sep +:+ rest.
Proof.
  induction s as [|c s IH]; cbn [contains before_first]; intros H.
  - apply orb_true_iff in H as [H|H]; [|done].
    apply startswith_true in H as [r Hr]. by exists r.
  - destruct (startswith sep (String c s)) eqn:E.
    + apply startswith_true in E as [r Hr]. by exists r.
    + simpl in H. destruct (IH H) as [rest Hrest].
      exists rest. rewrite sapp_cons. by f_equal.
Qed.

Lemma first_stage_pipe (x : string) :
  contains " | " x = true → first_stage x = strip (before_first " | " x).
Proof. unfold first_stage. intros ->. by rewrite split_on_hd. Qed.

Lemma incr_lookup (k : string) (m : gmap string nat) :
  incr k m !! k = Some (default 0 (m !! k) + 1).
Proof. unfold incr. by rewrite lookup_insert_eq. Qed.

Lemma incr_neq (k : string) (m : gmap string nat) : incr k m ≠ m.
Proof.
  intros H. assert (E : incr k m !! k = m !! k) by by rewrite H.
  rewrite incr_lookup in E. destruct (m !! k); simpl in E; [|done].
  injection E. lia.
Qed.

Lemma count_command_cases (m : gmap string nat) (part : string) :
  count_command m part = m ∨ ∃ k, count_command m part = incr k m.
Proof. unfold count_command. destruct (resolve part); eauto. Qed.

Lemma count_editor_cases (m : gmap string nat) (a : string) :
  count_editor m a = m ∨ ∃ k, count_editor m a = incr k m.
Proof. unfold count_editor. destruct (find _ editor_commands); eauto. Qed.

Lemma count_parts_keys (m : gmap string nat) (parts : list string) :
  ∃ ks, foldl (fun counts part => count_command counts (strip part)) m parts
        = foldl (fun counts k => incr k counts) m ks
        ∧ length ks ≤ length parts.
Proof.
  revert m. induction parts as [|p parts IH]; intros m.
  - by exists [].
  - simpl. destruct (count_command_cases m (strip p)) as [->|[k ->]].
    + destruct (IH m) as (ks & -> & Hlen). exists ks. split; [done|lia].
    + destruct (IH (incr k m)) as (ks & -> & Hlen).
      exists (k :: ks). split; [done|simpl; lia].
Qed.

Lemma count_action_single (m : gmap string nat) (a : string) :
  startswith "str_replace_editor" a = true ∨ contains " && " (strip a) = false →
  count_action m a = m ∨ ∃ k, count_action m a = incr k m.
Proof.
  intros H. unfold count_action.
  destruct (negb (nonempty a)); [by left|].
  destruct (startswith "str_replace_editor" a); [apply count_editor_cases|].
  destruct H as [H| ->]; [done|]. apply count_command_cases.
Qed.

Lemma count_action_keys (m : gmap string nat) (a : string) :
  ∃ ks, count_action m a = foldl (fun counts k => incr k counts) m ks
        ∧ length ks ≤ length (split_on " && " (strip a)).
Proof.
  pose proof (split_go_nonempty " && " 0 "" (strip a)) as Hne.
  fold (split_on " && " (strip a)) in Hne.
  destruct (contains " && " (strip a)) eqn:Hc.
  - destruct (startswith "str_replace_editor" a) eqn:He.
    + destruct (count_action_single m a (or_introl He)) as [->|[k ->]].
      * exists []. split; [done|simpl; lia].
      * exists [k]. split; [done|simpl; lia].
    + unfold count_action. rewrite He, Hc.
      destruct (negb (nonempty a)).
      * exists []. split; [done|simpl; lia].
      * apply count_parts_keys.
  - destruct (count_action_single m a (or_intror Hc)) as [->|[k ->]].
    + exists []. split; [done|simpl; lia].
    + exists [k]. split; [done|simpl; lia].
Qed.

Lemma split_ws_go_Some_hd (cur s : string) :
  hd "" (split_ws_go (Some cur) s) = String.rev cur +:+ take_run not_space s.
Proof.
  revert cur. induction s as [|c s IH]; intros cur.
  - simpl. by rewrite sapp_nil_r.
  - cbn [split_ws_go take_run]. unfold not_space.
    destruct (is_space c); simpl.
    + by rewrite sapp_nil_r.
    + rewrite IH, rev_cons, sapp_assoc. done.
Qed.

Lemma first_word_run (s : string) :
  first_word s = take_run not_space (lstrip s).
Proof.
  unfold first_word, split_ws. induction s as [|c s IH]; [done|].
  cbn [split_ws_go lstrip]. destruct (is_space c) eqn:E.
  - simpl. apply IH.
  - rewrite split_ws_go_Some_hd. cbn [take_run]. unfold not_space. by rewrite E.
Qed.

Lemma lstrip_head (s : string) : head_in is_space (lstrip s) = false.
Proof.
  induction s as [|c s IH]; [done|]. simpl.
  destruct (is_space c) eqn:E; [done|]. simpl. done.
Qed.

Lemma lstrip_id (s : string) : head_in is_space s = false → lstrip s = s.
Proof. destruct s as [|c s]; [done|]. simpl. by intros ->. Qed.

Lemma rstrip_cons (c : ascii) (s : string) :
  is_space c = false → rstrip (String c s) = String c (rstrip s).
Proof. intros E. simpl. rewrite E. by destruct (rstrip s). Qed.

Lemma rstrip_head (s : string) :
  head_in is_space s = false → head_in is_space (rstrip s) = false.
Proof.
  destruct s as [|c s]; [done|]. cbn [head_in]. intros E.
  by rewrite rstrip_cons.
Qed.

Lemma take_run_rstrip (s : string) :
  take_run not_space (rstrip s) = take_run not_space s.
Proof.
  induction s as [|c s IH]; [done|].
  destruct (is_space c) eqn:E.
  - cbn [rstrip]. rewrite E.
    assert (Hc : not_space c = false) by (unfold not_space; by rewrite E).
    destruct (rstrip s); cbn [take_run]; by rewrite ?Hc.
  - rewrite rstrip_cons by done.
    assert (Hc : not_space c = true) by (unfold not_space; by rewrite E).
    cbn [take_run]. by rewrite Hc, IH.
Qed.

Lemma strip_head (s : string) : head_in is_space (strip s) = false.
Proof. apply rstrip_head, lstrip_head. Qed.

Lemma first_word_strip (s : string) : first_word (strip s) = first_word s.
Proof.
  rewrite !first_word_run. unfold strip.
  rewrite (lstrip_id (rstrip (lstrip s))) by apply strip_head.
  apply take_run_rstrip.
Qed.

Lemma take_run_before_pipe (x : string) :
  take_run not_space (before_first " | " x) = take_run not_space x.
Proof.
  induction x as [|c x IH]; [done|]. cbn [before_first].
  destruct (startswith " | " (String c x)) eqn:E.
  - apply startswith_true in E as [r Hr]. by injection Hr as -> _.
  - simpl. by rewrite IH.
Qed.

Lemma before_pipe_head (x : string) :
  head_in is_space x = false →
  head_in is_space (before_first " | " x) = false.
Proof.
  destruct x as [|c x]; [done|]. cbn [before_first head_in]. intros E.
  destruct (startswith " | " (String c x)); done.
Qed.

Lemma first_word_first_stage (x : string) :
  head_in is_space x = false → first_word (first_stage x) = first_word x.
Proof.
  intros Hx. unfold first_stage. destruct (contains " | " x); [|done].
  rewrite split_on_hd, first_word_strip, !first_word_run.
  rewrite !lstrip_id by auto using before_pipe_head.
  apply take_run_before_pipe.
Qed.

(** The first word that the single-command branch looks at is the first
    word of the action. *)
Lemma first_word_of_action (a : string) :
  first_word (first_stage (strip a)) = first_word a.
Proof. rewrite first_word_first_stage by apply strip_head. apply first_word_strip. Qed.

Lemma first_word_nonempty (part : string) :
  nonempty (first_word part) = true → nonempty part = true.
Proof. by destruct part. Qed.

Lemma resolve_Some (part : string) :
  nonempty (first_word part) = true →
  startswith "-" (first_word part) = false →
  ∃ k, resolve part = Some k.
Proof.
  intros Hw Hd. unfold resolve.
  destruct (find _ shell_commands); [by eexists|].
  rewrite (first_word_nonempty _ Hw). cbv zeta.
  rewrite Hw, Hd. by eexists.
Qed.

Lemma resolve_None (part : string) :
  resolve part = None →
  first_word part = "" ∨ startswith "-" (first_word part) = true.
Proof.
  intros H.
  destruct (nonempty (first_word part)) eqn:Hw;
    [|left; by apply nonempty_false].
  destruct (startswith "-" (first_word part)) eqn:Hd; [by right|].
  destruct (resolve_Some _ Hw Hd) as [k Hk]. congruence.
Qed.

(** ** The vocabulary of shell commands matches at the start only *)

Lemma bol_search_later (r1 r2 : regex) (p : ascii) (s : string) :
  search_from (Alt (Cat Bol r1) (Cat Bol r2)) (Some p) s = false.
Proof.
  revert p. induction s as [|a s IH]; intros p; [done|].
  cbn [search_from]. rewrite IH. done.
Qed.

Lemma shell_pattern_starts (c part : string) :
  re_search (shell_pattern c) part = true →
  startswith c part = true ∨ startswith ("/" +:+ c) part = true.
Proof.
  unfold re_search, shell_pattern. intros H.
  assert (Hm : matches_at
                 (Alt (cat [Bol; Lit c; WordB])
                      (cat [Bol; Lit ("/" +:+ c); WordB])) None part = true).
  { destruct part as [|a part]; cbn [search_from] in H.
    - by rewrite orb_false_r in H.
    - cbn [cat] in H. rewrite bol_search_later, orb_false_r in H. exact H. }
  apply matches_at_true in Hm. cbn [cat exec] in Hm. unfold startswith.
  destruct (strip_prefix c part); [by left|].
  destruct (strip_prefix ("/" +:+ c) part); [by right|done].
Qed.

Lemma shell_commands_head :
  Forall (fun c => ∃ ch c', c = String ch c' ∧ is_space ch = false ∧ ch ≠ "-"%char)
         shell_commands.
Proof.
  unfold shell_commands.
  repeat (constructor; [eexists _, _; split; [reflexivity|split; [reflexivity|discriminate]]|]).
  constructor.
Qed.

Lemma first_word_cons (ch : ascii) (r : string) :
  is_space ch = false → ∃ w, first_word (String ch r) = String ch w.
Proof.
  intros E. rewrite first_word_run. cbn [lstrip]. rewrite E. cbn [take_run].
  unfold not_space. rewrite E. by eexists.
Qed.

(** When a name of the vocabulary matches, the text has a first word and it
    does not begin with a dash. *)
Lemma vocabulary_first_word (part c : string) :
  find (fun shell_cmd => re_search (shell_pattern shell_cmd) part) shell_commands
  = Some c →
  ∃ ch w, first_word part = String ch w ∧ ch ≠ "-"%char.
Proof.
  intros H. apply find_some in H as [Hin Hs].
  pose proof shell_commands_head as Hh. rewrite Forall_forall in Hh.
  destruct (Hh c) as (ch & c' & -> & Hsp & Hd); [by apply list_elem_of_In|].
  apply shell_pattern_starts in Hs as [Hs|Hs];
    apply startswith_true in Hs as [r ->].
  - rewrite sapp_cons. destruct (first_word_cons ch (c' +:+ r) Hsp) as [w ->].
    by exists ch, w.
  - change ("/" +:+ String ch c') with (String "/" (String ch c')).
    rewrite sapp_cons.
    destruct (first_word_cons "/" (String ch c' +:+ r) eq_refl) as [w ->].
    by exists "/"%char, w.
Qed.

Lemma startswith_dash_cons (ch : ascii) (w : string) :
  ch ≠ "-"%char → startswith "-" (String ch w) = false.
Proof.
  intros Hd. unfold startswith. cbn [strip_prefix].
  destruct (Ascii.eqb_spec "-"%char ch) as [<-|]; done.
Qed.

(** No name is resolved exactly when there is no first word or it begins
    with a dash. *)
Lemma resolve_None_iff (part : string) :
  resolve part = None
  ↔ first_word part = "" ∨ startswith "-" (first_word part) = true.
Proof.
  split; [apply resolve_None|]. intros H. unfold resolve.
  destruct (find _ shell_commands) as [c|] eqn:Ef.
  - destruct (vocabulary_first_word _ _ Ef) as (ch & w & Hw & Hd).
    rewrite Hw in H. destruct H as [H|H]; [done|].
    by rewrite startswith_dash_cons in H.
  - destruct (nonempty part); [|done]. cbv zeta.
    destruct H as [-> | ->]; [done|]. by rewrite andb_false_r.
Qed.

Lemma count_command_unchanged (m : gmap string nat) (part : string) :
  count_command m part = m ↔ resolve part = None.
Proof.
  unfold count_command. destruct (resolve part) as [k|]; split; try done.
  intros H. by apply incr_neq in H.
Qed.

Lemma count_action_shell (m : gmap string nat) (a : string) :
  startswith "str_replace_editor" a = false →
  contains " && " (strip a) = false →
  count_action m a = count_command m (first_stage (strip a)).
Proof.
  intros He Hc. unfold count_action. rewrite He, Hc.
  destruct a; [|done]. simpl. by vm_compute.
Qed.

(** ** Attributions of the tool counter *)

Lemma count_action_editor (m : gmap string nat) (a : string) :
  startswith "str_replace_editor" a = true →
  count_action m a = count_editor m a.
Proof.
  intros He. unfold count_action. rewrite He. by destruct a.
Qed.

Lemma count_editor_unchanged (m : gmap string nat) (a : string) :
  count_editor m a = m
  ↔ Forall (fun cmd => re_search (editor_pattern cmd) a = false) editor_commands.
Proof.
  unfold count_editor.
  destruct (find _ editor_commands) as [cmd|] eqn:E; split.
  - intros H. by apply incr_neq in H.
  - intros H. apply find_some in E as [Hin Hs].
    rewrite Forall_forall in H. apply list_elem_of_In in Hin.
    rewrite (H _ Hin) in Hs. done.
  - intros _. apply Forall_forall. intros cmd Hin.
    apply list_elem_of_In in Hin. by apply (find_none _ _ E).
  - done.
Qed.

(** Counting with an optional key per element is counting the keys that
    are there, in the order of the elements. *)
Lemma foldl_incr_omap (r : string -> option string) (m : gmap string nat)
    (parts : list string) :
  foldl (fun counts part =>
           match r part with Some k => incr k counts | None => counts end)
        m parts
  = foldl (fun counts k => incr k counts) m (omap r parts).
Proof.
  revert m. induction parts as [|p parts IH]; intros m; [done|].
  simpl. destruct (r p) as [k|]; simpl; apply IH.
Qed.

(** The loop over the parts of a [&&] chain counts the names that the
    parts resolve to, one after the other. *)
Lemma count_parts_resolved (m : gmap string nat) (parts : list string) :
  foldl (fun counts part => count_command counts (strip part)) m parts
  = foldl (fun counts k => incr k counts) m
          (omap (fun part => resolve (strip part)) parts).
Proof. exact (foldl_incr_omap (fun part => resolve (strip part)) m parts). Qed.

Lemma count_action_chain (m : gmap string nat) (a : string) :
  startswith "str_replace_editor" a = false →
  contains " && " (strip a) = true →
  count_action m a
  = foldl (fun counts part => count_command counts (strip part)) m
          (split_on " && " (strip a)).
Proof.
  intros He Hc. unfold count_action. rewrite He, Hc.
  destruct a as [|c a']; [|done]. by vm_compute in Hc.
Qed.

(** The claim C1 as stated fails: a non-empty action with a [&&] chain gets
    two attributions, neither one nor none; and a non-empty action can get
    none although its first token does not begin with a dash (an action of
    whitespace only has no token at all; an editor action whose operation is
    not one of the five is not counted). *)
Lemma C1_counterexample :
  (nonempty "cd /workspace && python script.py" = true
   ∧ count_action ∅ "cd /workspace && python script.py"
     = incr "python" (incr "cd" ∅)
   ∧ ¬ (count_action ∅ "cd /workspace && python script.py" = ∅
        ∨ ∃ k, count_action ∅ "cd /workspace && python script.py" = incr k ∅))
  ∧ (nonempty " " = true
     ∧ startswith "-" (first_word " ") = false
     ∧ count_action ∅ " " = ∅)
  ∧ (nonempty "str_replace_editor open /a.py" = true
     ∧ startswith "-" (first_word "str_replace_editor open /a.py") = false
     ∧ count_action ∅ "str_replace_editor open /a.py" = ∅).
Proof.
  split; [|split; by vm_compute].
  split; [done|]. split; [by vm_compute|].
  assert (E : count_action ∅ "cd /workspace && python script.py"
              = incr "python" (incr "cd" ∅)) by by vm_compute.
  rewrite E. intros [H|[k H]].
  - assert (L : incr "python" (incr "cd" ∅) !! "cd" = (∅ : gmap string nat) !! "cd")
      by by rewrite H.
    by vm_compute in L.
  - assert (L1 : incr "python" (incr "cd" ∅) !! "cd" = incr k ∅ !! "cd")
      by by rewrite H.
    assert (L2 : incr "python" (incr "cd" ∅) !! "python" = incr k ∅ !! "python")
      by by rewrite H.
    unfold incr in L1 at 3. unfold incr in L2 at 3.
    destruct (decide (k = "cd")) as [->|Hne].
    + rewrite lookup_insert_ne, lookup_empty in L2 by done. by vm_compute in L2.
    + rewrite lookup_insert_ne, lookup_empty in L1 by done. by vm_compute in L1.
Qed.

(** C1, amended: every attribution increments one key by one, and an action
    gets at most one attribution for each part of the [&&] chain of its
    stripped text, hence one or none when there is no [&&] or when the
    action starts with [str_replace_editor].  A shell action without [&&]
    gets none exactly when it has no first whitespace-delimited token (it is
    empty or all whitespace) or that token begins with a dash; otherwise it
    gets exactly one.  An action that starts with [str_replace_editor] gets
    none exactly when none of the five operation patterns matches.  A shell
    action with a [&&] chain gets, from left to right, exactly one
    attribution for each part of the chain that has a first
    whitespace-delimited token not beginning with a dash, under the name
    that this part resolves to, and none for the other parts: the table is
    the one obtained by incrementing, in order, the names of these parts. *)
Theorem C1_attributions (m : gmap string nat) (a : string) :
  (∃ ks, count_action m a = foldl (fun counts k => incr k counts) m ks
         ∧ length ks ≤ length (split_on " && " (strip a)))
  ∧ (startswith "str_replace_editor" a = true
     ∨ contains " && " (strip a) = false →
     (count_action m a = m ∨ ∃ k, count_action m a = incr k m)
     ∧ ¬ (count_action m a = m ∧ ∃ k, count_action m a = incr k m))
  ∧ (startswith "str_replace_editor" a = false →
     contains " && " (strip a) = false →
     (count_action m a = m
      ↔ first_word a = "" ∨ startswith "-" (first_word a) = true)
     ∧ (nonempty (first_word a) = true →
        startswith "-" (first_word a) = false →
        ∃ k, count_action m a = incr k m))
  ∧ (startswith "str_replace_editor" a = true →
     (count_action m a = m
      ↔ Forall (fun cmd => re_search (editor_pattern cmd) a = false)
               editor_commands))
  ∧ (startswith "str_replace_editor" a = false →
     contains " && " (strip a) = true →
     count_action m a
     = foldl (fun counts k => incr k counts) m
             (omap (fun part => resolve (strip part))
                   (split_on " && " (strip a)))
     ∧ (∀ part,
          resolve (strip part) = None
          ↔ first_word part = "" ∨ startswith "-" (first_word part) = true)).
Proof.
  split; [apply count_action_keys|]. split; [|split; [|split]].
  - intros H. split; [by apply count_action_single|].
    intros [E [k Hk]]. rewrite E in Hk. symmetry in Hk. by apply incr_neq in Hk.
  - intros He Hc. rewrite (count_action_shell m a He Hc).
    split.
    + rewrite count_command_unchanged, resolve_None_iff.
      by rewrite first_word_of_action.
    + intros Hw Hd. rewrite <- first_word_of_action in Hw, Hd.
      destruct (resolve_Some _ Hw Hd) as [k Hk].
      exists k. unfold count_command. by rewrite Hk.
  - intros He. rewrite (count_action_editor m a He). apply count_editor_unchanged.
  - intros He Hc. split.
    + rewrite (count_action_chain m a He Hc). apply count_parts_resolved.
    + intros part. by rewrite resolve_None_iff, first_word_strip.
Qed.

Lemma C1_witness :
  (∃ k, count_action ∅ "./run.sh --fast | tee log" = incr k ∅)
  ∧ count_action ∅ "a && -b && c"
    = foldl (fun counts k => incr k counts) ∅ ["a"; "c"].
Proof.
  split.
  - destruct (C1_attributions ∅ "./run.sh --fast | tee log") as (_ & _ & H & _).
    destruct (H eq_refl eq_refl) as [_ Hone].
    apply Hone; reflexivity.
  - destruct (C1_attributions ∅ "a && -b && c") as (_ & _ & _ & _ & H).
    destruct (H eq_refl eq_refl) as [E _].
    rewrite E. reflexivity.
Defined.

(** ** Pipes *)

(** The claim C7 as stated fails in the shell branch when the pipe is
    written without a space on each side: the code splits at the text
    [" | "] only, so the shell action [./x|/bin/grep foo], which has a pipe
    and no [&&], is not split; its first whitespace-delimited token is
    [./x|/bin/grep], whose base name [grep], the command of the second
    stage, is counted, where the first stage [./x] alone counts [x].
    Likewise [foo|bar] is counted under the name [foo|bar]. *)
Lemma C7_counterexample :
  startswith "str_replace_editor" "./x|/bin/grep foo" = false
  ∧ contains " && " (strip "./x|/bin/grep foo") = false
  ∧ contains "|" (strip "./x|/bin/grep foo") = true
  ∧ before_first "|" (strip "./x|/bin/grep foo") = "./x"
  ∧ count_action ∅ "./x|/bin/grep foo" = {[ "grep" := 1 ]}
  ∧ count_action ∅ "./x" = {[ "x" := 1 ]}
  ∧ count_action ∅ "./x|/bin/grep foo" ≠ count_action ∅ "./x"
  ∧ count_action ∅ "foo|bar" = {[ "foo|bar" := 1 ]}
  ∧ count_action ∅ "foo" = {[ "foo" := 1 ]}.
Proof.
  assert (E1 : count_action ∅ "./x|/bin/grep foo" = {[ "grep" := 1 ]})
    by by vm_compute.
  assert (E2 : count_action ∅ "./x" = {[ "x" := 1 ]}) by by vm_compute.
  assert (N : count_action ∅ "./x|/bin/grep foo" ≠ count_action ∅ "./x").
  { rewrite E1, E2. intros H.
    assert (L : ({[ "grep" := 1 ]} : gmap string nat) !! "x"
                = ({[ "x" := 1 ]} : gmap string nat) !! "x") by by rewrite H.
    by vm_compute in L. }
  split; [by vm_compute|]. split; [by vm_compute|]. split; [by vm_compute|].
  split; [by vm_compute|]. split; [exact E1|]. split; [exact E2|].
  split; [exact N|]. split; by vm_compute.
Qed.

(** C7, amended: the pipe separator is the text [" | "], a pipe with a
    space on each side, looked for in the stripped text of a shell action
    (one that does not start with [str_replace_editor]).  For every such
    action whose stripped text contains [" | "] and no [" && "], the counter
    resolves and counts the stripped text before the first [" | "] only:
    the result is that of counting this first stage, at most one
    attribution, and two such actions with the same first stage are counted
    alike. *)
Theorem C7_first_pipe_stage (m : gmap string nat) (a : string) :
  startswith "str_replace_editor" a = false →
  contains " && " (strip a) = false →
  contains " | " (strip a) = true →
  (∃ rest, strip a = before_first " | " (strip a) +:+ " | " +:+ rest)
  ∧ count_action m a = count_command m (strip (before_first " | " (strip a)))
  ∧ (count_action m a = m ∨ ∃ k, count_action m a = incr k m)
  ∧ (∀ b, startswith "str_replace_editor" b = false →
          contains " && " (strip b) = false →
          contains " | " (strip b) = true →
          before_first " | " (strip b) = before_first " | " (strip a) →
          count_action m b = count_action m a).
Proof.
  intros He Hc Hp.
  assert (E : ∀ b, startswith "str_replace_editor" b = false →
                   contains " && " (strip b) = false →
                   contains " | " (strip b) = true →
                   count_action m b
                   = count_command m (strip (before_first " | " (strip b)))).
  { intros b Hbe Hbc Hbp.
    by rewrite (count_action_shell m b Hbe Hbc), first_stage_pipe. }
  split; [by apply before_first_split|].
  split; [by apply E|].
  split; [apply count_action_single; by right|].
  intros b Hbe Hbc Hbp Hb. rewrite (E a), (E b) by done. by rewrite Hb.
Qed.

Lemma C7_witness :
  count_action ∅ "python3 run.py | grep -v ok | wc -l" = {[ "python3" := 1 ]}.
Proof.
  destruct (C7_first_pipe_stage ∅ "python3 run.py | grep -v ok | wc -l"
              eq_refl eq_refl eq_refl) as (_ & E & _).
  rewrite E. vm_compute. reflexivity.
Defined.

(** ** The shell patterns of the search classifier *)

Lemma space_not_word (c : ascii) : is_space c = true → is_word c = false.
Proof. destruct c as [[] [] [] [] [] [] [] []]; vm_compute; congruence. Qed.

Lemma word_at_app (name s : string) :
  nonempty name = true → word_at (name +:+ s) = word_at name.
Proof. by destruct name. Qed.

Lemma head_space_not_word (s : string) :
  head_in is_space s = true → word_at s = false.
Proof. destruct s as [|c s]; [done|]. apply space_not_word. Qed.

Lemma at_end_not_word (s : string) : at_end s = true → word_at s = false.
Proof.
  destruct s as [|c [|d s]]; try done. simpl. intros H.
  apply N.eqb_eq in H.
  assert (c = ascii_of_N 10) as -> by (by rewrite <- H, ascii_N_embedding).
  done.
Qed.

Lemma plus_head {A} (c : ascii -> bool) (prev : option ascii) (s : string)
    (k : cont A) (r : A) :
  exec (Plus c) prev s k = Some r → head_in c s = true.
Proof. destruct s as [|a s]; simpl; [done|]. by destruct (c a). Qed.

(** A match of [\bname\s+...] starts at a word boundary and is followed by
    whitespace. *)
Lemma word_space_sound {A} (name : string) (p : option ascii) (rest : string)
    (k : cont A) (r : A) :
  word_at name = true →
  exec WordB p rest
    (fun p1 s1 => exec (Lit name) p1 s1
                    (fun p2 s2 => exec (Plus is_space) p2 s2 k)) = Some r →
  word_before p = false
  ∧ ∃ post, rest = name +:+ post ∧ head_in is_space post = true.
Proof.
  intros Hn H. cbn [exec] in H.
  destruct (xorb (word_before p) (word_at rest)) eqn:Hx; [|done].
  destruct (strip_prefix name rest) as [post|] eqn:Hp; [|done].
  apply strip_prefix_Some in Hp as ->.
  rewrite word_at_app, Hn in Hx by (by destruct name).
  split; [by destruct (word_before p)|].
  exists post. split; [done|].
  destruct post as [|b post]; [done|]. simpl. by destruct (is_space b).
Qed.

Lemma whole_word_intro (name pre post : string) (prev : option ascii) :
  prev = last_char None pre →
  word_before prev = false →
  head_in is_space post = true →
  whole_word name (pre +:+ name +:+ post).
Proof.
  intros -> Hb Hs. exists pre, post.
  split; [done|]. split; [done|]. split; [by apply head_space_not_word|by left].
Qed.

Lemma bash_word_sound (name a : string) :
  word_at name = true →
  re_search (bash_word name) a = true → whole_word name a.
Proof.
  intros Hn H. apply search_from_sound in H as (pre & rest & -> & H).
  apply matches_at_true in H. unfold bash_word in H. cbn [cat exec] in H.
  destruct (word_space_sound name _ rest _ _ Hn H) as (Hb & post & -> & Hs).
  by eapply whole_word_intro.
Qed.

Lemma bash_git_sound (sub a : string) :
  re_search (bash_git sub) a = true → whole_word "git" a.
Proof.
  intros H. apply search_from_sound in H as (pre & rest & -> & H).
  apply matches_at_true in H. unfold bash_git in H. cbn [cat exec] in H.
  destruct (word_space_sound "git" _ rest _ _ eq_refl H) as (Hb & post & -> & Hs).
  by eapply whole_word_intro.
Qed.

Lemma bash_ls_end_sound (a : string) :
  re_search (cat [WordB; Lit "ls"; Eol]) a = true → whole_word "ls" a.
Proof.
  intros H. apply search_from_sound in H as (pre & rest & -> & H).
  apply matches_at_true in H. cbn [cat exec] in H.
  destruct (xorb (word_before (last_char None pre)) (word_at rest)) eqn:Hx; [|done].
  destruct (strip_prefix "ls" rest) as [post|] eqn:Hp; [|done].
  apply strip_prefix_Some in Hp as ->.
  destruct (at_end post) eqn:He; [|done].
  rewrite word_at_app in Hx by done.
  exists pre, post. split; [done|].
  split; [by destruct (word_before (last_char None pre))|].
  split; [by apply at_end_not_word|by right].
Qed.

Lemma bash_tier_sound (a : string) :
  bash_tier a = true → ∃ name, name ∈ bash_names ∧ whole_word name a.
Proof.
  unfold bash_tier, bash_search_patterns, bash_names. cbn [existsb].
  rewrite !orb_true_iff.
  intros H.
  repeat (destruct H as [H|H];
          [first [ apply bash_word_sound in H; [|reflexivity]
                 | apply bash_ls_end_sound in H
                 | apply bash_git_sound in H ];
           eexists; split; [|exact H]; set_solver |]).
  done.
Qed.

(** The claim C9 as stated fails: the patterns anchor on [\b], a boundary
    between a word character and a non-word character, not on whitespace.
    In ["/bin/ls -la"] no command name is a whitespace-delimited token (the
    tokens are ["/bin/ls"] and ["-la"]), yet the pattern of [ls] matches and
    the step is a search step by the shell tier alone. *)
Lemma C9_counterexample :
  split_ws "/bin/ls -la" = ["/bin/ls"; "-la"]
  ∧ Forall (fun name => ¬ is_token name "/bin/ls -la") bash_names
  ∧ re_search (bash_word "ls") "/bin/ls -la" = true
  ∧ bash_tier "/bin/ls -la" = true
  ∧ swe_agent_tier "/bin/ls -la" = false
  ∧ re_search editor_view_pattern "/bin/ls -la" = false
  ∧ locate_search [ step_of "/bin/ls -la" "" ] = [0].
Proof.
  split; [by vm_compute|]. split; [|repeat split; by vm_compute].
  unfold is_token. replace (split_ws "/bin/ls -la") with ["/bin/ls"; "-la"]
    by by vm_compute.
  unfold bash_names.
  repeat (constructor;
          [intros Hin;
           repeat (apply elem_of_cons in Hin as [Hin|Hin]; [discriminate|]);
           by apply elem_of_nil in Hin|]).
  constructor.
Qed.

(** C9, amended: a shell pattern of the search classifier classifies a step
    only when its command name occurs in the action as a whole word in the
    sense of [\b]: not preceded by a letter, digit or underscore, and
    followed by whitespace (for [ls] also by the end of the text).  The
    name may follow any other character, such as a slash or a dash.  An
    occurrence only inside a longer word never classifies the step:
    ["catalog x"] and ["find_results x"] are not matched. *)
Theorem C9_shell_patterns_whole_word (a : string) :
  (bash_tier a = true → ∃ name, name ∈ bash_names ∧ whole_word name a)
  ∧ ((∀ name, name ∈ bash_names → ¬ whole_word name a) → bash_tier a = false)
  ∧ bash_tier "catalog x" = false
  ∧ bash_tier "find_results x" = false.
Proof.
  split; [apply bash_tier_sound|]. split; [|split; by vm_compute].
  intros Hno. destruct (bash_tier a) eqn:E; [|done].
  destruct (bash_tier_sound a E) as (name & Hin & Hw).
  by destruct (Hno name Hin).
Qed.

Lemma C9_witness :
  ∃ name, name ∈ bash_names ∧ whole_word name "cd /workspace && find . -name '*.py'".
Proof.
  apply (proj1 (C9_shell_patterns_whole_word "cd /workspace && find . -name '*.py'")).
  vm_compute. reflexivity.
Defined.

(** ** The creation pattern of the reproduction classifier *)

Lemma take_drop_run (c : ascii -> bool) (s : string) :
  s = take_run c s +:+ drop_run c s.
Proof.
  induction s as [|a s IH]; [done|]. simpl.
  destruct (c a); [|done]. rewrite sapp_cons. by f_equal.
Qed.

Lemma take_run_all (c : ascii -> bool) (s : string) :
  all_chars c (take_run c s) = true.
Proof.
  induction s as [|a s IH]; [done|]. simpl.
  destruct (c a) eqn:E; [|done]. simpl. by rewrite E.
Qed.

Lemma drop_run_head (c : ascii -> bool) (s : string) :
  head_in c (drop_run c s) = false.
Proof.
  induction s as [|a s IH]; [done|]. simpl.
  destruct (c a) eqn:E; [done|]. simpl. done.
Qed.

(** With a continuation that always succeeds, a repetition takes the
    maximal run. *)
Lemma star_loop_greedy {A} (c : ascii -> bool) (prev : option ascii)
    (s : string) (k : cont A) :
  (∀ p s', is_Some (k p s')) →
  star_loop c prev s k = k (last_char prev (take_run c s)) (drop_run c s).
Proof.
  intros Hk. revert prev. induction s as [|a s IH]; intros prev; [done|].
  simpl. destruct (c a); [|done]. simpl. rewrite IH.
  destruct (Hk (last_char (Some a) (take_run c s)) (drop_run c s)) as [r ->].
  done.
Qed.

Lemma take_str_app (x y : string) :
  take_str (String.length (x +:+ y) - String.length y) (x +:+ y) = x.
Proof.
  rewrite slength_app. replace (_ + _ - _) with (String.length x) by lia.
  unfold take_str. induction x as [|a x IH].
  - by destruct y.
  - rewrite sapp_cons. simpl. by rewrite IH.
Qed.

Lemma created_filepath_intro (a fp : string) :
  create_action a fp → created_filepath a = Some fp.
Proof.
  intros (ws & rest & -> & Hws & Hall & Hfp & Hfall & Hrest).
  unfold created_filepath. cbn [cat exec]. rewrite strip_prefix_app.
  destruct ws as [|w ws]; [done|]. destruct fp as [|f fp]; [done|].
  simpl in Hall, Hfall.
  apply andb_true_iff in Hall as [Hw Hall].
  apply andb_true_iff in Hfall as [Hf Hfall].
  rewrite sapp_cons, Hw.
  apply star_loop_all; [done| |].
  - rewrite sapp_cons. simpl. unfold not_space in Hf. by destruct (is_space f).
  - rewrite sapp_cons. cbn [exec]. rewrite Hf.
    apply star_loop_all; [done|done|].
    f_equal. apply (take_str_app (String f fp) rest).
Qed.

Lemma created_filepath_sound (a fp : string) :
  created_filepath a = Some fp → create_action a fp.
Proof.
  unfold created_filepath. cbn [cat exec]. intros H.
  destruct (strip_prefix "str_replace_editor create" a) as [s|] eqn:Hp; [|done].
  apply strip_prefix_Some in Hp as ->.
  destruct s as [|w s]; [done|].
  destruct (is_space w) eqn:Hw; [|done].
  apply star_loop_sound in H as (pre & post & -> & Hall & H).
  destruct post as [|f post]; [done|]. cbn [exec] in H.
  destruct (not_space f) eqn:Hf; [|done].
  rewrite star_loop_greedy in H by (intros; by eexists).
  pose proof (take_drop_run not_space post) as Hpost.
  pose proof (take_str_app (String f (take_run not_space post))
                (drop_run not_space post)) as E.
  rewrite sapp_cons, <- Hpost in E. rewrite E in H. injection H as <-.
  exists (String w pre), (drop_run not_space post).
  split.
  { rewrite Hpost at 1. by rewrite !sapp_cons. }
  split; [done|]. split; [simpl; by rewrite Hw|]. split; [done|].
  split; [simpl; by rewrite Hf, take_run_all|]. apply drop_run_head.
Qed.

Lemma created_filepath_spec (a fp : string) :
  created_filepath a = Some fp ↔ create_action a fp.
Proof. split; [apply created_filepath_sound|apply created_filepath_intro]. Qed.

Lemma create_action_contains (a fp : string) :
  create_action a fp → contains "str_replace_editor create" a = true.
Proof.
  intros (ws & rest & -> & _). apply startswith_contains, startswith_app.
Qed.

(** The value of [is_reproduction] on a creation. *)
Lemma is_reproduction_create (a fp th : string) :
  create_action a fp →
  is_reproduction a th
  = python_file fp
    && (filename_signal (lower (basename fp))
        || thought_signal th
        || location_signal fp (lower (basename fp))).
Proof.
  intros H. unfold is_reproduction, python_file.
  rewrite (create_action_contains _ _ H), (created_filepath_intro _ _ H).
  simpl. by destruct (endswith ".py" (lower (basename fp))).
Qed.

Lemma is_reproduction_true (a th : string) :
  is_reproduction a th = true →
  ∃ fp, create_action a fp ∧ python_file fp = true.
Proof.
  unfold is_reproduction, python_file.
  destruct (negb (contains "str_replace_editor create" a)); [done|].
  destruct (created_filepath a) as [fp|] eqn:E; [|done].
  destruct (endswith ".py" (lower (basename fp))) eqn:Hpy; [|done].
  intros _. exists fp. split; [by apply created_filepath_sound|done].
Qed.

Lemma reproduction_flag_text (st : step) (a : string) :
  action st = Text a → reproduction_flag st = is_reproduction a (thought_text st).
Proof. intros H. unfold reproduction_flag, reproduction_step. by rewrite H. Qed.

Lemma is_reproduction_empty (th : string) : is_reproduction "" th = false.
Proof.
  unfold is_reproduction.
  by replace (contains "str_replace_editor create" "") with false
    by (symmetry; by vm_compute).
Qed.

Lemma reproduction_flag_true (st : step) :
  reproduction_flag st = true →
  ∃ a, action st = Text a ∧ is_reproduction a (thought_text st) = true.
Proof.
  unfold reproduction_flag, reproduction_step.
  destruct (action st) as [| |a]; cbn [get default].
  - by rewrite is_reproduction_empty.
  - done.
  - intros H. by exists a.
Qed.

(** The claim C5 as stated fails for a file name with an upper-case
    extension: the code tests the lower-cased name (lines 100-103), so the
    creation of [/repo/REPRODUCE.PY] is flagged although neither the name
    of the created file nor its path ends in [.py]. *)
Lemma C5_counterexample :
  created_filepath "str_replace_editor create /repo/REPRODUCE.PY"
  = Some "/repo/REPRODUCE.PY"
  ∧ basename "/repo/REPRODUCE.PY" = "REPRODUCE.PY"
  ∧ endswith ".py" "REPRODUCE.PY" = false
  ∧ endswith ".py" "/repo/REPRODUCE.PY" = false
  ∧ locate_reproduction_code
      [ step_of "str_replace_editor create /repo/REPRODUCE.PY" "" ]
    = Some [0].
Proof. repeat split; by vm_compute. Qed.

(** C5, amended: the reproduction classifier flags a step only if its
    action is a creation in the recognised syntax ([str_replace_editor
    create], whitespace, a path) and the lower-cased name of the created
    file ends in [.py], so that [.PY] and [.Py] count as well; a step whose
    action is no such creation, and a creation of a file whose lower-cased
    name does not end in [.py], are never flagged, whatever the file name,
    the thought or the location. *)
Theorem C5_only_python_creations (trajectory : list step) (l : list nat) :
  locate_reproduction_code trajectory = Some l →
  (∀ i, i ∈ l →
        ∃ st a fp, trajectory !! i = Some st ∧ action st = Text a
                   ∧ create_action a fp ∧ python_file fp = true)
  ∧ (∀ i st, trajectory !! i = Some st →
             (∀ a fp, action st = Text a → ¬ create_action a fp) →
             i ∉ l)
  ∧ (∀ i st a fp, trajectory !! i = Some st → action st = Text a →
                  create_action a fp → python_file fp = false →
                  i ∉ l).
Proof.
  intros Hl.
  assert (Hflag : ∀ i, i ∈ l →
            ∃ st a fp, trajectory !! i = Some st ∧ action st = Text a
                       ∧ create_action a fp ∧ python_file fp = true).
  { intros i Hi.
    apply (locate_reproduction_code_elem _ _ _ Hl) in Hi as (st & Hst & Hf).
    apply reproduction_flag_true in Hf as (a & Ha & Hr).
    apply is_reproduction_true in Hr as (fp & Hc & Hpy).
    by exists st, a, fp. }
  split; [done|]. split.
  - intros i st Hst Hno Hi.
    destruct (Hflag i Hi) as (st' & a & fp & Hst' & Ha & Hc & _).
    assert (st' = st) as -> by congruence. by apply (Hno a fp).
  - intros i st a fp Hst Ha Hc Hpy Hi.
    destruct (Hflag i Hi) as (st' & a' & fp' & Hst' & Ha' & Hc' & Hpy').
    assert (st' = st) as -> by congruence.
    assert (a' = a) as -> by congruence.
    apply created_filepath_intro in Hc, Hc'. congruence.
Qed.

Lemma C5_witness :
  (1 ∉ [0])
  ∧ ∃ st a fp,
      [ step_of "str_replace_editor create /testbed/reproduce_bug.py" "";
        step_of "str_replace_editor create /testbed/reproduce_bug.sh" "" ] !! 0
      = Some st
      ∧ action st = Text a ∧ create_action a fp ∧ python_file fp = true.
Proof.
  destruct (C5_only_python_creations
              [ step_of "str_replace_editor create /testbed/reproduce_bug.py" "";
                step_of "str_replace_editor create /testbed/reproduce_bug.sh" "" ]
              [0]) as (Hin & _ & Hpy).
  { vm_compute. reflexivity. }
  split.
  - eapply (Hpy 1).
    + reflexivity.
    + reflexivity.
    + apply created_filepath_sound. vm_compute. reflexivity.
    + vm_compute. reflexivity.
  - apply Hin. constructor.
Defined.

(** ** The location signal *)

Lemma not_slash_neq (c : ascii) : not_slash c = true → Ascii.eqb "/" c = false.
Proof.
  unfold not_slash. intros H.
  destruct (Ascii.eqb_spec "/"%char c) as [<-|]; [by vm_compute in H|done].
Qed.

Lemma has_slash_false (s : string) :
  all_chars not_slash s = true → has_slash s = false.
Proof.
  unfold has_slash. induction s as [|c s IH]; [done|].
  cbn [all_chars contains]. intros H.
  apply andb_true_iff in H as [Hc Hs].
  rewrite IH by done. unfold startswith. cbn [strip_prefix].
  by rewrite not_slash_neq.
Qed.

Lemma basename_no_slash (s : string) : has_slash s = false → basename s = s.
Proof. destruct s; [done|]. simpl. by intros ->. Qed.

Lemma basename_after_slash (x y : string) :
  has_slash y = false → basename (x +:+ "/" +:+ y) = y.
Proof.
  intros Hy. induction x as [|c x IH].
  - change ("" +:+ "/" +:+ y) with (String "/" y). cbn [basename].
    replace (has_slash (String "/" y)) with true by by vm_compute.
    by apply basename_no_slash.
  - rewrite sapp_cons. cbn [basename].
    assert (has_slash (String c (x +:+ "/" +:+ y)) = true) as ->; [|done].
    unfold has_slash. apply contains_true. by exists (String c x), y.
Qed.

Lemma testbed_script_match (stem : string) :
  nonempty stem = true → all_chars not_slash stem = true →
  re_match testbed_script ("/testbed/" +:+ stem +:+ ".py") = true.
Proof.
  intros Hne Hall. unfold re_match, matches_at, testbed_script.
  apply bool_decide_eq_true. cbn [cat exec]. rewrite strip_prefix_app.
  destruct stem as [|c stem]; [done|]. simpl in Hall.
  apply andb_true_iff in Hall as [Hc Hall]. rewrite sapp_cons.
  cbv beta iota. rewrite Hc.
  apply star_loop_complete; [done|]. cbn. by eexists.
Qed.

(** The three signals on a [.py] file directly under [/testbed/]. *)
Lemma testbed_file (stem : string) :
  nonempty stem = true → all_chars not_slash stem = true →
  basename ("/testbed/" +:+ stem +:+ ".py") = stem +:+ ".py"
  ∧ python_file ("/testbed/" +:+ stem +:+ ".py") = true
  ∧ location_signal ("/testbed/" +:+ stem +:+ ".py") (lower (stem +:+ ".py"))
    = negb (bool_decide (lower (stem +:+ ".py") ∈ excluded_filenames)).
Proof.
  intros Hne Hall.
  assert (Hb : basename ("/testbed/" +:+ stem +:+ ".py") = stem +:+ ".py").
  { apply (basename_after_slash "/testbed" (stem +:+ ".py")).
    apply has_slash_false. rewrite all_chars_app, Hall. done. }
  split; [done|]. split.
  - unfold python_file. rewrite Hb, lower_app. apply endswith_app.
  - unfold location_signal. by rewrite testbed_script_match.
Qed.

Lemma excluded_no_keyword (name : string) :
  name ∈ excluded_filenames → filename_signal name = false.
Proof.
  unfold excluded_filenames. intros H.
  repeat (apply elem_of_cons in H as [->|H]; [by vm_compute|]).
  by apply elem_of_nil in H.
Qed.

Lemma testbed_create_action (ws stem rest : string) :
  nonempty ws = true → all_chars is_space ws = true →
  all_chars not_space stem = true → head_in not_space rest = false →
  create_action
    ("str_replace_editor create" +:+ ws +:+ "/testbed/" +:+ stem +:+ ".py" +:+ rest)
    ("/testbed/" +:+ stem +:+ ".py").
Proof.
  intros Hws Hall Hstem Hrest. exists ws, rest.
  split; [by rewrite !sapp_assoc|]. split; [done|]. split; [done|].
  split; [done|]. split; [|done].
  rewrite !all_chars_app, Hstem. done.
Qed.

(** The flag of a step that creates a [.py] file directly under
    [/testbed/]. *)
Lemma testbed_flag (st : step) (ws stem rest : string) :
  action st
  = Text ("str_replace_editor create" +:+ ws +:+ "/testbed/" +:+ stem
          +:+ ".py" +:+ rest) →
  nonempty ws = true → all_chars is_space ws = true →
  nonempty stem = true → all_chars not_slash stem = true →
  all_chars not_space stem = true → head_in not_space rest = false →
  reproduction_flag st
  = filename_signal (lower (stem +:+ ".py"))
    || thought_signal (thought_text st)
    || negb (bool_decide (lower (stem +:+ ".py") ∈ excluded_filenames)).
Proof.
  intros Ha Hws Hall Hne Hsl Hsp Hrest.
  rewrite (reproduction_flag_text _ _ Ha).
  rewrite (is_reproduction_create _ ("/testbed/" +:+ stem +:+ ".py"))
    by by apply testbed_create_action.
  destruct (testbed_file stem Hne Hsl) as (-> & -> & ->). done.
Qed.

Lemma single_creation_unflagged (a fp : string) (t : field) :
  created_filepath a = Some fp →
  filename_signal (lower (basename fp)) = false →
  location_signal fp (lower (basename fp)) = false →
  thought_signal (thought_text {| action := Text a; thought := t |}) = false →
  locate_reproduction_code [ {| action := Text a; thought := t |} ] = Some [].
Proof.
  intros Hc Hf Hl Ht. rewrite locate_reproduction_code_flagged.
  cbn [forallb text_action action andb flagged_from].
  rewrite (reproduction_flag_text _ a) by done.
  rewrite (is_reproduction_create a fp) by by apply created_filepath_sound.
  by rewrite Hf, Hl, Ht, andb_false_r.
Qed.

(** A path that does not start with [/testbed/] has no location signal. *)
Lemma testbed_script_prefix (fp : string) :
  startswith "/testbed/" fp = false → re_match testbed_script fp = false.
Proof.
  intros H. unfold re_match, matches_at, testbed_script. cbn [cat exec].
  unfold startswith in H.
  destruct (strip_prefix "/testbed/" fp); [discriminate H|].
  apply bool_decide_eq_false. intros [x Hx]. discriminate Hx.
Qed.

Lemma excluded_filenames_elem (name : string) :
  name ∈ excluded_filenames
  ↔ name = "__init__.py" ∨ name = "setup.py" ∨ name = "conftest.py".
Proof.
  unfold excluded_filenames. rewrite !elem_of_cons, elem_of_nil. tauto.
Qed.

Lemma excluded_location (fp name : string) :
  name ∈ excluded_filenames → location_signal fp name = false.
Proof.
  intros H. unfold location_signal.
  rewrite (bool_decide_eq_true_2 _ H). apply andb_false_r.
Qed.

(** The claim C4 as stated fails on both of its readings of the root and
    of the exclusion set.  The root of the code is [/testbed/] (line 123),
    not [/workspace/]: the creation of [/workspace/foo.py], a single path
    component under [/workspace/] whose name is not in the exclusion set,
    is not flagged, where that of [/testbed/foo.py] is.  And the exclusion
    set is compared with the lower-cased name (line 124): the creation of
    [/testbed/Setup.py], directly under the root and with a name that is
    not in the exclusion set, is not flagged. *)
Lemma C4_counterexample :
  (("foo.py" ∉ excluded_filenames)
   ∧ locate_reproduction_code
       [ step_of "str_replace_editor create /workspace/foo.py" "" ] = Some []
   ∧ locate_reproduction_code
       [ step_of "str_replace_editor create /testbed/foo.py" "" ] = Some [0])
  ∧ (("Setup.py" ∉ excluded_filenames)
     ∧ basename "/testbed/Setup.py" = "Setup.py"
     ∧ locate_reproduction_code
         [ step_of "str_replace_editor create /testbed/Setup.py" "" ] = Some []).
Proof.
  assert (Hfoo : "foo.py" ∉ excluded_filenames).
  { rewrite excluded_filenames_elem. by intros [H|[H|H]]. }
  assert (Hsetup : "Setup.py" ∉ excluded_filenames).
  { rewrite excluded_filenames_elem. by intros [H|[H|H]]. }
  split; [split; [exact Hfoo|split]|split; [exact Hsetup|split]];
    by vm_compute.
Qed.

(** C4, amended: the fixed root is [/testbed/].  A step that creates a
    [.py] file as a single path component directly under [/testbed/] is
    flagged by the location signal alone, whatever the file name and the
    thought, unless the lower-cased file name is one of the three names
    [__init__.py], [setup.py] and [conftest.py]; with such a name and no
    matching thought it is not flagged, as for [/testbed/setup.py].  A
    creation of a file whose path does not start with [/testbed/] has no
    location signal and is not flagged when no keyword is in the file name
    and no pattern matches the thought: so it is for [/workspace/helper.py]
    and for [/workspace/setup.py], which are not under the root. *)
Theorem C4_location_signal :
  (∀ (trajectory : list step) (i : nat) (st : step) (ws stem rest : string),
      forallb text_action trajectory = true →
      trajectory !! i = Some st →
      action st
      = Text ("str_replace_editor create" +:+ ws +:+ "/testbed/" +:+ stem
              +:+ ".py" +:+ rest) →
      nonempty ws = true → all_chars is_space ws = true →
      nonempty stem = true → all_chars not_slash stem = true →
      all_chars not_space stem = true → head_in not_space rest = false →
      ∃ l, locate_reproduction_code trajectory = Some l
           ∧ (lower (stem +:+ ".py") ∉ excluded_filenames → i ∈ l)
           ∧ (lower (stem +:+ ".py") ∈ excluded_filenames →
              thought_signal (thought_text st) = false → i ∉ l))
  ∧ (∀ t : field,
        thought_signal
          (thought_text
             {| action := Text "str_replace_editor create /workspace/helper.py";
                thought := t |}) = false →
        locate_reproduction_code
          [ {| action := Text "str_replace_editor create /workspace/helper.py";
               thought := t |} ] = Some [])
  ∧ (∀ t : field,
        thought_signal
          (thought_text
             {| action := Text "str_replace_editor create /workspace/setup.py";
                thought := t |}) = false →
        locate_reproduction_code
          [ {| action := Text "str_replace_editor create /workspace/setup.py";
               thought := t |} ] = Some [])
  ∧ (∀ name : string,
        name ∈ excluded_filenames
        ↔ name = "__init__.py" ∨ name = "setup.py" ∨ name = "conftest.py")
  ∧ (∀ t : field,
        thought_signal
          (thought_text
             {| action := Text "str_replace_editor create /testbed/setup.py";
                thought := t |}) = false →
        locate_reproduction_code
          [ {| action := Text "str_replace_editor create /testbed/setup.py";
               thought := t |} ] = Some [])
  ∧ (∀ (a fp : string) (t : field),
        create_action a fp →
        startswith "/testbed/" fp = false →
        filename_signal (lower (basename fp)) = false →
        thought_signal (thought_text {| action := Text a; thought := t |})
        = false →
        locate_reproduction_code [ {| action := Text a; thought := t |} ]
        = Some []).
Proof.
  split; [|split; [|split; [|split; [|split]]]].
  - intros trajectory i st ws stem rest Htext Hst Ha Hws Hall Hne Hsl Hsp Hrest.
    exists (flagged_from reproduction_flag 0 trajectory).
    pose proof (locate_reproduction_code_total _ Htext) as Hl.
    pose proof (testbed_flag st ws stem rest Ha Hws Hall Hne Hsl Hsp Hrest) as Hf.
    split; [done|]. split.
    + intros Hex. apply (locate_reproduction_code_elem _ _ _ Hl).
      exists st. split; [done|]. rewrite Hf.
      rewrite (bool_decide_eq_false_2 _ Hex). apply orb_true_r.
    + intros Hex Hth Hi.
      apply (locate_reproduction_code_elem _ _ _ Hl) in Hi as (st' & Hst' & Hf').
      assert (st' = st) as -> by congruence.
      rewrite Hf, (excluded_no_keyword _ Hex), Hth in Hf'.
      by rewrite (bool_decide_eq_true_2 _ Hex) in Hf'.
  - intros t Ht.
    by apply (single_creation_unflagged _ "/workspace/helper.py").
  - intros t Ht.
    by apply (single_creation_unflagged _ "/workspace/setup.py").
  - apply excluded_filenames_elem.
  - intros t Ht.
    apply (single_creation_unflagged _ "/testbed/setup.py");
      [by vm_compute|by vm_compute| |done].
    apply excluded_location, excluded_filenames_elem.
    right. left. by vm_compute.
  - intros a fp t Hc Hp Hf Ht.
    apply (single_creation_unflagged a fp);
      [by apply created_filepath_intro|done| |done].
    unfold location_signal. by rewrite testbed_script_prefix.
Qed.

Lemma C4_witness :
  (∃ l, locate_reproduction_code
          [ step_of "ls" "";
            step_of "str_replace_editor create /testbed/foo.py --file_text 'x'"
                    "now the fix" ] = Some l
        ∧ 1 ∈ l)
  ∧ locate_reproduction_code
      [ step_of "str_replace_editor create /workspace/helper.py" "a helper" ]
    = Some []
  ∧ locate_reproduction_code
      [ step_of "str_replace_editor create /testbed/setup.py" "packaging" ]
    = Some []
  ∧ locate_reproduction_code
      [ step_of "str_replace_editor create /workspace/foo.py" "" ]
    = Some [].
Proof.
  split; [|split; [|split]].
  - destruct (proj1 C4_location_signal
                [ step_of "ls" "";
                  step_of "str_replace_editor create /testbed/foo.py --file_text 'x'"
                          "now the fix" ]
                1 _ " " "foo" " --file_text 'x'"
                eq_refl eq_refl eq_refl eq_refl eq_refl eq_refl eq_refl eq_refl
                eq_refl)
      as (l & Hl & Hin & _).
    exists l. split; [exact Hl|]. apply Hin. vm_compute.
    intros H. repeat (apply elem_of_cons in H as [H|H]; [discriminate|]).
    by apply elem_of_nil in H.
  - apply (proj1 (proj2 C4_location_signal)). vm_compute. reflexivity.
  - apply (proj1 (proj2 (proj2 (proj2 (proj2 C4_location_signal))))).
    vm_compute. reflexivity.
  - apply (proj2 (proj2 (proj2 (proj2 (proj2 C4_location_signal))))
             "str_replace_editor create /workspace/foo.py" "/workspace/foo.py").
    + apply created_filepath_sound. vm_compute. reflexivity.
    + vm_compute. reflexivity.
    + vm_compute. reflexivity.
    + vm_compute. reflexivity.
Defined.

(** ** Errors and blank fields *)

Lemma forallb_false_elem {X} (f : X -> bool) (l : list X) :
  forallb f l = false → ∃ x, x ∈ l ∧ f x = false.
Proof.
  induction l as [|x l IH]; [done|]. simpl. intros H.
  destruct (f x) eqn:Hx.
  - destruct (IH H) as (y & Hin & Hy). exists y. split; [by right|done].
  - exists x. split; [by left|done].
Qed.

(** X1: on a trajectory whose fields are each missing, [null] or text (the
    values of [field]; a number, a boolean or a list in a field is not
    covered by the embedding), [locate_reproduction_code] raises (the
    [TypeError] of the [in] test on [None], line 90) exactly when some step
    has a [null] action; otherwise it returns a list.  A missing action
    and a missing or [null] thought never make it raise. *)
Theorem reproduction_raises_iff_null_action (trajectory : list step) :
  locate_reproduction_code trajectory = None
  ↔ ∃ st, st ∈ trajectory ∧ action st = Null.
Proof.
  rewrite locate_reproduction_code_flagged.
  destruct (forallb text_action trajectory) eqn:E.
  - split; [done|]. intros (st & Hin & Hnull).
    rewrite forallb_forall in E. apply list_elem_of_In in Hin.
    specialize (E _ Hin). unfold text_action in E. by rewrite Hnull in E.
  - split; [|done]. intros _.
    destruct (forallb_false_elem _ _ E) as (st & Hin & Hst).
    exists st. split; [done|].
    unfold text_action in Hst. by destruct (action st).
Qed.

Lemma reproduction_raises_witness :
  locate_reproduction_code
    [ step_of "ls" ""; {| action := Null; thought := Text "x" |} ] = None.
Proof.
  apply reproduction_raises_iff_null_action.
  exists {| action := Null; thought := Text "x" |}.
  split; [|reflexivity]. right. left.
Defined.

Lemma blank_or_str (f : field) : blank f = true → or_str (get f "") "" = "".
Proof. destruct f as [| |s]; try done. by destruct s. Qed.

Lemma blank_equiv_text (f g : field) :
  blank_equiv f g → or_str (get f "") "" = or_str (get g "") "".
Proof. intros [->|[Hf Hg]]; [done|]. by rewrite !blank_or_str. Qed.

Lemma flagged_from_app (f : step -> bool) (n : nat) (l1 l2 : list step) :
  flagged_from f n (l1 ++ l2)
  = flagged_from f n l1 ++ flagged_from f (n + length l1) l2.
Proof.
  revert n. induction l1 as [|st l1 IH]; intros n; simpl.
  - by rewrite Nat.add_0_r.
  - rewrite IH. replace (S n + length l1) with (n + S (length l1)) by lia.
    by destruct (f st).
Qed.

Lemma flagged_from_shift (f : step -> bool) (n k : nat) (l : list step) :
  flagged_from f (k + n) l = map (fun i => k + i) (flagged_from f n l).
Proof.
  revert n. induction l as [|st l IH]; intros n; simpl; [done|].
  rewrite <- Nat.add_succ_r, IH. by destruct (f st).
Qed.

(** X2: the search classifier and the tool counter read a missing, [null]
    or empty action as the empty text and never look at the thought: two
    trajectories whose actions are equal or blank step by step give the same
    search indices and the same counts.  The reproduction classifier reads
    the thought in the same way: with equal actions and thoughts that are
    equal or blank it gives the same result. *)
Theorem blank_fields_read_as_empty (t1 t2 : list step) :
  (Forall2 (fun s1 s2 => blank_equiv (action s1) (action s2)) t1 t2 →
   locate_search t1 = locate_search t2
   ∧ locate_tool_use t1 = locate_tool_use t2)
  ∧ (Forall2 (fun s1 s2 => action s1 = action s2
                           ∧ blank_equiv (thought s1) (thought s2)) t1 t2 →
     locate_reproduction_code t1 = locate_reproduction_code t2).
Proof.
  split.
  - intros H. split.
    + rewrite !locate_search_flagged. apply flagged_from_ext.
      eapply Forall2_impl; [exact H|]. intros s1 s2 Hs.
      unfold search_step. by rewrite (blank_equiv_text _ _ Hs).
    + unfold locate_tool_use. generalize (∅ : gmap string nat).
      induction H as [|s1 s2 t1 t2 Hs Ht IH]; intros m; [done|].
      simpl. unfold count_step at 2 4. rewrite (blank_equiv_text _ _ Hs).
      apply IH.
  - intros H. rewrite !locate_reproduction_code_flagged.
    rewrite (forallb_ext2 text_action t1 t2).
    + destruct (forallb text_action t2); [|done]. f_equal.
      apply flagged_from_ext. eapply Forall2_impl; [exact H|].
      intros s1 s2 [Ha Ht]. unfold reproduction_flag, reproduction_step.
      by rewrite Ha, (blank_equiv_text _ _ Ht).
    + eapply Forall2_impl; [exact H|]. intros s1 s2 [Ha _].
      unfold text_action. by rewrite Ha.
Qed.

Lemma blank_fields_witness :
  locate_search [ {| action := Null; thought := Null |};
                  {| action := Text "ls"; thought := Text "a" |} ]
  = locate_search [ step_of "" "x"; step_of "ls" "b" ]
  ∧ locate_reproduction_code
      [ {| action := Text "str_replace_editor create /testbed/a.py";
           thought := Null |} ]
    = locate_reproduction_code
        [ step_of "str_replace_editor create /testbed/a.py" "" ].
Proof.
  split.
  - apply (proj1 (blank_fields_read_as_empty
                    [ {| action := Null; thought := Null |};
                      {| action := Text "ls"; thought := Text "a" |} ]
                    [ step_of "" "x"; step_of "ls" "b" ])).
    constructor; [right; split; reflexivity|].
    constructor; [left; reflexivity|constructor].
  - apply (proj2 (blank_fields_read_as_empty
                    [ {| action := Text "str_replace_editor create /testbed/a.py";
                         thought := Null |} ]
                    [ step_of "str_replace_editor create /testbed/a.py" "" ])).
    constructor; [|constructor].
    split; [reflexivity|right; split; reflexivity].
Defined.

(** ** Concatenation of trajectories *)

(** X3: the search indices of a concatenation are those of the first part
    followed by those of the second part shifted by the length of the
    first. *)
Theorem locate_search_app (t1 t2 : list step) :
  locate_search (t1 ++ t2)
  = locate_search t1 ++ map (fun i => length t1 + i) (locate_search t2).
Proof.
  rewrite !locate_search_flagged, flagged_from_app. f_equal.
  rewrite <- (flagged_from_shift search_step 0 (length t1)).
  by rewrite Nat.add_0_r.
Qed.

(** X4: the reproduction classifier on a concatenation returns the indices
    of the first part followed by those of the second part shifted by the
    length of the first, and raises when it raises on either part. *)
Theorem locate_reproduction_code_app (t1 t2 : list step) :
  locate_reproduction_code (t1 ++ t2)
  = l1 ← locate_reproduction_code t1;
    l2 ← locate_reproduction_code t2;
    Some (l1 ++ map (fun i => length t1 + i) l2).
Proof.
  rewrite !locate_reproduction_code_flagged, forallb_app.
  destruct (forallb text_action t1); [|done].
  destruct (forallb text_action t2); [|done]. simpl.
  rewrite flagged_from_app. do 2 f_equal.
  rewrite <- (flagged_from_shift reproduction_flag 0 (length t1)).
  by rewrite Nat.add_0_r.
Qed.

(** ** The reproduction classifier, step by step *)

(** X5: the reproduction classifier flags step [i] exactly when the action
    of the step is a creation, in the recognised syntax, of a file whose
    lower-cased base name ends in [.py], and the filename signal, the
    thought signal or the location signal holds. *)
Theorem reproduction_flagged_iff (trajectory : list step) (l : list nat) (i : nat) :
  locate_reproduction_code trajectory = Some l →
  i ∈ l
  ↔ ∃ st a fp,
      trajectory !! i = Some st ∧ action st = Text a
      ∧ create_action a fp ∧ python_file fp = true
      ∧ (filename_signal (lower (basename fp)) = true
         ∨ thought_signal (thought_text st) = true
         ∨ location_signal fp (lower (basename fp)) = true).
Proof.
  intros Hl. rewrite (locate_reproduction_code_elem _ _ _ Hl). split.
  - intros (st & Hst & Hf).
    apply reproduction_flag_true in Hf as (a & Ha & Hr).
    destruct (is_reproduction_true _ _ Hr) as (fp & Hc & Hpy).
    rewrite (is_reproduction_create _ _ _ Hc), Hpy in Hr. simpl in Hr.
    exists st, a, fp. repeat (split; [done|]).
    apply orb_true_iff in Hr as [Hr|Hr]; [|by right; right].
    apply orb_true_iff in Hr as [Hr|Hr]; [by left|by right; left].
  - intros (st & a & fp & Hst & Ha & Hc & Hpy & Hsig).
    exists st. split; [done|].
    rewrite (reproduction_flag_text _ _ Ha), (is_reproduction_create _ _ _ Hc), Hpy.
    simpl. rewrite !orb_true_iff. tauto.
Qed.

Lemma reproduction_flagged_witness :
  0 ∈ [0].
Proof.
  apply (reproduction_flagged_iff
           [ step_of "str_replace_editor create /repo/tests/Debug_Parser.py" "" ]
           [0] 0).
  - vm_compute. reflexivity.
  - exists (step_of "str_replace_editor create /repo/tests/Debug_Parser.py" ""),
      "str_replace_editor create /repo/tests/Debug_Parser.py",
      "/repo/tests/Debug_Parser.py".
    split; [reflexivity|]. split; [reflexivity|].
    split; [apply created_filepath_sound; vm_compute; reflexivity|].
    split; [vm_compute; reflexivity|].
    left. vm_compute. reflexivity.
Defined.

Lemma is_space_newline (c : ascii) : (N_of_ascii c =? 10)%N = true → is_space c = true.
Proof.
  intros H. apply N.eqb_eq in H.
  assert (c = ascii_of_N 10) as -> by (by rewrite <- H, ascii_N_embedding).
  done.
Qed.

Lemma testbed_script_sound (fp : string) :
  all_chars not_space fp = true →
  re_match testbed_script fp = true → testbed_root_file fp.
Proof.
  intros Hsp H. unfold re_match in H. apply matches_at_true in H.
  unfold testbed_script in H. cbn [cat exec] in H.
  destruct (strip_prefix "/testbed/" fp) as [s|] eqn:Hp; [|done].
  apply strip_prefix_Some in Hp as ->.
  destruct s as [|c s]; [done|].
  destruct (not_slash c) eqn:Hc; [|done].
  apply star_loop_sound in H as (pre & post & -> & Hall & H).
  destruct (strip_prefix ".py" post) as [r|] eqn:Hr; [|done].
  apply strip_prefix_Some in Hr as ->.
  destruct (at_end r) eqn:He; [|done].
  assert (r = "") as ->.
  { rewrite !all_chars_app in Hsp. cbn [all_chars] in Hsp.
    rewrite !all_chars_app in Hsp.
    destruct r as [|n [|? ?]]; [done| |done].
    simpl in He. apply is_space_newline in He.
    rewrite !andb_true_iff in Hsp. destruct Hsp as (_ & _ & _ & _ & Hn).
    simpl in Hn. unfold not_space in Hn. by rewrite He in Hn. }
  exists (String c pre). split.
  { by rewrite sapp_nil_r, !sapp_cons. }
  split; [done|]. simpl. by rewrite Hc.
Qed.

(** X6: on a path without whitespace, as a created path always is, the
    location signal holds exactly when the path is [/testbed/], one path
    component without a slash, and [.py], and the lower-cased file name is
    not [__init__.py], [setup.py] or [conftest.py].  A file in a
    subdirectory of [/testbed/] never has the signal. *)
Theorem location_signal_iff (fp filename_lower : string) :
  all_chars not_space fp = true →
  location_signal fp filename_lower = true
  ↔ testbed_root_file fp ∧ filename_lower ∉ excluded_filenames.
Proof.
  intros Hsp. unfold location_signal.
  rewrite andb_true_iff, negb_true_iff, bool_decide_eq_false. split.
  - intros [H Hex]. split; [by apply testbed_script_sound|done].
  - intros [(stem & -> & Hne & Hall) Hex]. split; [|done].
    by apply testbed_script_match.
Qed.

Lemma location_signal_witness :
  location_signal "/testbed/run.py" "run.py" = true.
Proof.
  apply (location_signal_iff "/testbed/run.py" "run.py" eq_refl).
  split.
  - exists "run". repeat split.
  - intros H. repeat (apply elem_of_cons in H as [H|H]; [discriminate|]).
    by apply elem_of_nil in H.
Defined.

(** ** Reproduction steps are not search steps *)

Lemma star_loop_accept (c : ascii -> bool) (prev : option ascii) (s : string) :
  star_loop c prev s accept = Some tt.
Proof.
  revert prev. induction s as [|a s IH]; intros prev; [done|].
  simpl. destruct (c a); [|done]. by rewrite IH.
Qed.

(** The pattern [str_replace_editor\s+op\s+] matches where the three pieces
    follow each other. *)
Lemma editor_op_match (op pre ws1 ws2 tail : string) :
  head_in not_space op = true →
  nonempty ws1 = true → all_chars is_space ws1 = true →
  head_in is_space ws2 = true →
  re_search (editor_op op)
    (pre +:+ "str_replace_editor" +:+ ws1 +:+ op +:+ ws2 +:+ tail) = true.
Proof.
  intros Hop Hne Hall Hws2. apply search_from_complete, matches_at_true.
  unfold editor_op. cbn [cat exec]. rewrite strip_prefix_app.
  destruct ws1 as [|w ws1]; [done|]. simpl in Hall.
  apply andb_true_iff in Hall as [Hw Hall].
  rewrite sapp_cons. cbv beta iota. rewrite Hw.
  apply star_loop_all; [done| |].
  - destruct op as [|o op]; [done|]. rewrite sapp_cons. simpl.
    simpl in Hop. unfold not_space in Hop. by destruct (is_space o).
  - rewrite strip_prefix_app.
    destruct ws2 as [|w2 ws2]; [done|]. simpl in Hws2.
    rewrite sapp_cons. cbv beta iota. rewrite Hws2.
    apply star_loop_accept.
Qed.

Lemma create_action_modification (a fp : string) :
  create_action a fp → is_modification a = true.
Proof.
  intros (ws & rest & -> & Hne & Hall & _).
  unfold is_modification, code_modification_patterns. cbn [existsb].
  assert (re_search (editor_op "create")
            ("str_replace_editor create" +:+ ws +:+ fp +:+ rest) = true) as ->;
    [|by rewrite orb_true_r].
  destruct ws as [|w ws]; [done|]. simpl in Hall.
  apply andb_true_iff in Hall as [Hw Hall].
  apply (editor_op_match "create" "" " " (String w ws) (fp +:+ rest)); try done.
Qed.

(** X7: no step is both a reproduction step and a search step: every step
    that the reproduction classifier flags creates a file, which the search
    classifier excludes as a modification. *)
Theorem reproduction_and_search_disjoint (trajectory : list step)
    (l : list nat) (i : nat) :
  locate_reproduction_code trajectory = Some l →
  i ∈ l → i ∉ locate_search trajectory.
Proof.
  intros Hl Hi Hs.
  apply (locate_reproduction_code_elem _ _ _ Hl) in Hi as (st & Hst & Hf).
  apply reproduction_flag_true in Hf as (a & Ha & Hr).
  apply is_reproduction_true in Hr as (fp & Hc & _).
  apply locate_search_elem in Hs as (st' & Hst' & Hs).
  assert (st' = st) as -> by congruence.
  unfold search_step in Hs. rewrite Ha in Hs. cbn [get] in Hs.
  assert (Hne : nonempty a = true).
  { destruct Hc as (ws & rest & -> & _). done. }
  unfold or_str in Hs. rewrite Hne in Hs.
  by rewrite (create_action_modification _ _ Hc) in Hs.
Qed.

Lemma reproduction_and_search_disjoint_witness :
  1 ∉ locate_search
        [ step_of "ls" "";
          step_of "str_replace_editor create /testbed/find_bug.py --file_text 'grep x'" "" ].
Proof.
  apply (reproduction_and_search_disjoint _ [1] 1).
  - vm_compute. reflexivity.
  - constructor.
Defined.

(** ** The thought patterns in plain terms *)

Lemma strip_prefix_cat (w1 w2 s : string) :
  strip_prefix (w1 +:+ w2) s = s1 ← strip_prefix w1 s; strip_prefix w2 s1.
Proof.
  revert s. induction w1 as [|a w1 IH]; intros s; [done|].
  rewrite sapp_cons. cbn [strip_prefix]. destruct s as [|b s]; [done|].
  destruct (Ascii.eqb a b); [apply IH|done].
Qed.

(** The matcher on a pattern without repetition or assertion: it reads one
    of the texts of the pattern. *)
Lemma exec_words (r : regex) :
  ∀ (ws : list string), words r = Some ws →
  ∀ (A : Type) (prev : option ascii) (s : string) (k : cont A),
    is_Some (exec r prev s k)
    ↔ ∃ w s', w ∈ ws ∧ strip_prefix w s = Some s'
              ∧ is_Some (k (last_char prev w) s').
Proof.
  induction r as [l|c|c|r1 IH1|r1 IH1 r2 IH2|r1 IH1 r2 IH2| | |];
    intros ws Hws A prev s k; simpl in Hws; try done.
  - injection Hws as <-. simpl. split.
    + destruct (strip_prefix l s) as [s'|] eqn:E; [|by intros [? ?]].
      intros Hk. exists l, s'. split; [by left|done].
    + intros (w & s' & Hin & Hp & Hk).
      apply list_elem_of_singleton in Hin as ->. by rewrite Hp.
  - destruct (words r1) as [ws1|] eqn:E1; [|done]. injection Hws as <-.
    cbn [exec]. rewrite orelse_is_Some, (IH1 ws1 eq_refl). split.
    + intros [(w & s' & Hin & Hp & Hk)|Hk].
      * exists w, s'. split; [apply elem_of_app; by left|done].
      * exists "", s. split; [apply elem_of_app; right; by left|done].
    + intros (w & s' & Hin & Hp & Hk).
      apply elem_of_app in Hin as [Hin|Hin].
      * left. by exists w, s'.
      * apply list_elem_of_singleton in Hin as ->. injection Hp as <-. by right.
  - destruct (words r1) as [ws1|] eqn:E1; [|done].
    destruct (words r2) as [ws2|] eqn:E2; [|done]. injection Hws as <-.
    cbn [exec]. rewrite orelse_is_Some, (IH1 ws1 eq_refl), (IH2 ws2 eq_refl).
    split.
    + intros [(w & s' & Hin & H)|(w & s' & Hin & H)]; exists w, s';
        (split; [apply elem_of_app; auto|done]).
    + intros (w & s' & Hin & H). apply elem_of_app in Hin as [Hin|Hin];
        [left|right]; by exists w, s'.
  - destruct (words r1) as [ws1|] eqn:E1; [|done].
    destruct (words r2) as [ws2|] eqn:E2; [|done]. injection Hws as <-.
    cbn [exec]. rewrite (IH1 ws1 eq_refl). split.
    + intros (w1 & s1 & Hin1 & Hp1 & Hk).
      apply (IH2 ws2 eq_refl) in Hk as (w2 & s2 & Hin2 & Hp2 & Hk).
      exists (w1 +:+ w2), s2. split; [|split].
      * apply list_elem_of_bind. exists w1. split; [|done].
        apply list_elem_of_bind. exists w2. split; [by left|done].
      * by rewrite strip_prefix_cat, Hp1.
      * by rewrite last_char_app.
    + intros (w & s2 & Hin & Hp & Hk).
      apply list_elem_of_bind in Hin as (w1 & Hin & Hin1).
      apply list_elem_of_bind in Hin as (w2 & Hin & Hin2).
      apply list_elem_of_singleton in Hin as ->.
      rewrite strip_prefix_cat in Hp.
      destruct (strip_prefix w1 s) as [s1|] eqn:Hp1; [|done]. simpl in Hp.
      exists w1, s1. split; [done|]. split; [done|].
      apply (IH2 ws2 eq_refl). exists w2, s2.
      split; [done|]. split; [done|]. by rewrite <- last_char_app.
Qed.

(** Searching such a pattern is searching one of its texts as a substring. *)
Lemma re_search_words (r : regex) (ws : list string) (s : string) :
  words r = Some ws →
  re_search r s = true ↔ ∃ w, w ∈ ws ∧ contains w s = true.
Proof.
  intros Hws. split.
  - intros H. apply search_from_sound in H as (pre & rest & -> & H).
    unfold matches_at in H. apply bool_decide_eq_true in H.
    apply (exec_words r ws Hws) in H as (w & s' & Hin & Hp & _).
    apply strip_prefix_Some in Hp as ->.
    exists w. split; [done|]. apply contains_true. by exists pre, s'.
  - intros (w & Hin & Hc). apply contains_true in Hc as (pre & post & ->).
    apply search_from_complete. unfold matches_at. apply bool_decide_eq_true.
    apply (exec_words r ws Hws). exists w, post.
    split; [done|]. split; [apply strip_prefix_app|by eexists].
Qed.

(** Searching [a.*b]. *)
Lemma re_search_gap (a b s : string) :
  re_search (cat [Lit a; Star not_newline; Lit b]) s = true ↔ gap_match a b s.
Proof.
  split.
  - intros H. apply search_from_sound in H as (pre & rest & -> & H).
    apply matches_at_true in H. cbn [cat exec] in H.
    destruct (strip_prefix a rest) as [s1|] eqn:Ha; [|done].
    apply strip_prefix_Some in Ha as ->.
    apply star_loop_sound in H as (mid & s2 & -> & Hall & H).
    destruct (strip_prefix b s2) as [post|] eqn:Hb; [|done].
    apply strip_prefix_Some in Hb as ->.
    by exists pre, mid, post.
  - intros (pre & mid & post & -> & Hall).
    apply search_from_complete. unfold matches_at. apply bool_decide_eq_true.
    cbn [cat exec]. rewrite strip_prefix_app.
    apply star_loop_complete; [done|]. rewrite strip_prefix_app. by eexists.
Qed.

Ltac elem_of_closed_list :=
  repeat first [ apply list_elem_of_here | apply list_elem_of_further ].

Ltac phrase_to_pattern :=
  first [ left; eexists; split; [|eassumption]; solve [elem_of_closed_list]
        | left; eexists; eexists; split; [|eassumption]; solve [elem_of_closed_list]
        | right; phrase_to_pattern ].

(** X8: the thought signal holds exactly when the lower-cased thought
    contains one of 24 fixed phrases as a substring, or contains ["test"]
    followed on the same line by ["to reproduce"], ["create"] followed by
    ["to test"] or by ["to verify"], or ["minimal"] followed by
    ["example"]; a [.*] never spans a newline. *)
Theorem thought_signal_iff (thought_lower : string) :
  thought_signal thought_lower = true
  ↔ (∃ phrase, phrase ∈ thought_phrases ∧ contains phrase thought_lower = true)
    ∨ (∃ a b, (a, b) ∈ thought_gaps ∧ gap_match a b thought_lower).
Proof.
  unfold thought_signal, thought_patterns, bug_issue_problem_fix.
  cbn [existsb]. rewrite !orb_true_iff.
  rewrite !re_search_gap.
  repeat match goal with
         | |- context [re_search ?r ?s = true] =>
             let ws := eval vm_compute in (words r) in
             match ws with
             | Some ?l => rewrite (re_search_words r l s eq_refl)
             end
         end.
  split.
  - intros H.
    repeat (destruct H as [H|H];
            [ first
                [ destruct H as (w & Hin & Hc); left; exists w; split; [|done];
                  repeat (apply elem_of_cons in Hin as [->|Hin];
                          [solve [elem_of_closed_list]|]);
                  by apply elem_of_nil in Hin
                | right; eexists; eexists; split; [|exact H];
                  solve [elem_of_closed_list] ]
            |]).
    done.
  - intros [(w & Hin & Hc)|(a & b & Hin & Hg)].
    + unfold thought_phrases in Hin.
      repeat (apply elem_of_cons in Hin as [->|Hin];
              [solve [phrase_to_pattern]|]).
      by apply elem_of_nil in Hin.
    + unfold thought_gaps in Hin.
      repeat (apply elem_of_cons in Hin as [[= -> ->]|Hin];
              [repeat first [ left; exact Hg | right ]|]).
      by apply elem_of_nil in Hin.
Qed.

Lemma thought_signal_witness :
  thought_signal ("first create a file" +:+ String "010" "to test it") = false
  ∧ thought_signal "let me create a small file to test it" = true.
Proof.
  split.
  - vm_compute. reflexivity.
  - apply thought_signal_iff. right. exists "create", "to test".
    split; [elem_of_closed_list|].
    exists "let me ", " a small file ", " it". split; reflexivity.
Defined.

(** ** The shell tier of the search classifier, conversely *)

Lemma bash_word_complete (name pre post : string) :
  word_at name = true →
  word_before (last_char None pre) = false →
  head_in is_space post = true →
  re_search (bash_word name) (pre +:+ name +:+ post) = true.
Proof.
  intros Hn Hb Hs. apply search_from_complete, matches_at_true.
  unfold bash_word. cbn [cat exec].
  rewrite word_at_app, Hn, Hb by (by destruct name). cbn [xorb].
  rewrite strip_prefix_app.
  destruct post as [|w post]; [done|]. simpl in Hs. rewrite Hs.
  apply star_loop_accept.
Qed.

Lemma bash_ls_end_complete (pre post : string) :
  word_before (last_char None pre) = false →
  at_end post = true →
  re_search (cat [WordB; Lit "ls"; Eol]) (pre +:+ "ls" +:+ post) = true.
Proof.
  intros Hb He. apply search_from_complete, matches_at_true.
  cbn [cat exec]. rewrite word_at_app, Hb by done.
  replace (word_at "ls") with true by done. cbn [xorb].
  rewrite strip_prefix_app. by rewrite He.
Qed.

Lemma bash_git_complete (sub pre ws post : string) :
  head_in not_space sub = true →
  word_before (last_char None pre) = false →
  nonempty ws = true → all_chars is_space ws = true →
  head_in is_space post = true →
  re_search (bash_git sub) (pre +:+ "git" +:+ ws +:+ sub +:+ post) = true.
Proof.
  intros Hsub Hb Hne Hall Hs. apply search_from_complete, matches_at_true.
  unfold bash_git. cbn [cat exec]. rewrite word_at_app, Hb by done.
  replace (word_at "git") with true by done. cbn [xorb].
  rewrite strip_prefix_app.
  destruct ws as [|w ws]; [done|]. simpl in Hall.
  apply andb_true_iff in Hall as [Hw Hall].
  rewrite sapp_cons. cbv beta iota. rewrite Hw.
  apply star_loop_all; [done| |].
  - destruct sub as [|o sub]; [done|]. rewrite sapp_cons. simpl.
    simpl in Hsub. unfold not_space in Hsub. by destruct (is_space o).
  - rewrite strip_prefix_app.
    destruct post as [|w2 post]; [done|]. simpl in Hs. rewrite Hs.
    apply star_loop_accept.
Qed.

Lemma bash_tier_intro (p : regex) (a : string) :
  In p bash_search_patterns → re_search p a = true → bash_tier a = true.
Proof.
  intros Hin Hs. unfold bash_tier. apply existsb_exists. by exists p.
Qed.

Lemma not_modification_search (trajectory : list step) (i : nat) (st : step) :
  trajectory !! i = Some st →
  is_modification (action_text st) = false →
  bash_tier (action_text st) = true →
  i ∈ locate_search trajectory.
Proof.
  intros Hst Hmod Hb. apply locate_search_elem. exists st. split; [done|].
  unfold search_step. fold (action_text st). rewrite Hmod.
  unfold is_search_step. rewrite Hb. by rewrite !orb_true_r.
Qed.

(** X9: a step that is not excluded as a modification is a search step
    whenever its action contains one of [find], [grep], [cat], [ls],
    [head], [tail], [less], [more], [wc], [awk], [sed], [rg], [ag] as a
    whole word followed by whitespace, or [ls] as a whole word at the end
    of the text, or [git], whitespace, [show], [log] or [diff], and
    whitespace. *)
Theorem shell_word_is_search (trajectory : list step) (i : nat) (st : step)
    (pre post : string) :
  trajectory !! i = Some st →
  is_modification (action_text st) = false →
  word_before (last_char None pre) = false →
  (∀ name, name ∈ bash_simple_names →
           head_in is_space post = true →
           action_text st = pre +:+ name +:+ post →
           i ∈ locate_search trajectory)
  ∧ (at_end post = true →
     action_text st = pre +:+ "ls" +:+ post →
     i ∈ locate_search trajectory)
  ∧ (∀ sub ws, sub ∈ ["show"; "log"; "diff"] →
               nonempty ws = true → all_chars is_space ws = true →
               head_in is_space post = true →
               action_text st = pre +:+ "git" +:+ ws +:+ sub +:+ post →
               i ∈ locate_search trajectory).
Proof.
  intros Hst Hmod Hb. split; [|split].
  - intros name Hin Hs Ha. apply (not_modification_search _ _ _ Hst Hmod).
    rewrite Ha. unfold bash_simple_names in Hin.
    repeat (apply elem_of_cons in Hin as [->|Hin];
            [eapply bash_tier_intro; cycle 1;
             [by apply bash_word_complete
             |unfold bash_search_patterns;
              repeat first [left; reflexivity | right]]|]).
    by apply elem_of_nil in Hin.
  - intros He Ha. apply (not_modification_search _ _ _ Hst Hmod).
    rewrite Ha. apply (bash_tier_intro (cat [WordB; Lit "ls"; Eol]));
      [unfold bash_search_patterns; repeat first [left; reflexivity | right]
      |by apply bash_ls_end_complete].
  - intros sub ws Hin Hne Hall Hs Ha.
    apply (not_modification_search _ _ _ Hst Hmod). rewrite Ha.
    repeat (apply elem_of_cons in Hin as [->|Hin];
            [eapply bash_tier_intro; cycle 1;
             [by apply bash_git_complete
             |unfold bash_search_patterns;
              repeat first [left; reflexivity | right]]|]).
    by apply elem_of_nil in Hin.
Qed.

Lemma shell_word_is_search_witness :
  0 ∈ locate_search [ step_of "cd /repo && git   log  -3 | /usr/bin/head -1" "" ].
Proof.
  destruct (shell_word_is_search
              [ step_of "cd /repo && git   log  -3 | /usr/bin/head -1" "" ] 0 _
              "cd /repo && " "  -3 | /usr/bin/head -1" eq_refl eq_refl eq_refl)
    as (_ & _ & Hgit).
  apply (Hgit "log" "   "); try reflexivity.
  right. left.
Defined.

(** ** Resolving a command to a name *)

Lemma shell_pattern_anchored (c s : string) :
  re_search (shell_pattern c) s = anchored c s || anchored ("/" +:+ c) s.
Proof.
  assert (Hm : matches_at (shell_pattern c) None s
               = anchored c s || anchored ("/" +:+ c) s).
  { unfold matches_at, shell_pattern, anchored. cbn [cat exec].
    destruct (strip_prefix c s) as [r|];
      [destruct (xorb (word_before (last_char None c)) (word_at r)); [done|]|];
      (destruct (strip_prefix ("/" +:+ c) s) as [r'|]; [|done]);
      by destruct (xorb (word_before (last_char None ("/" +:+ c))) (word_at r')). }
  unfold re_search. destruct s as [|a s]; cbn [search_from]; rewrite Hm.
  - by rewrite orb_false_r.
  - unfold shell_pattern. cbn [cat]. by rewrite bol_search_later, orb_false_r.
Qed.

(** What follows a prefix of word characters does not depend on a
    continuation that starts with a non-word character. *)
Lemma after_prefix_app (f : bool -> bool) (c' c rest : string) :
  all_chars is_word c' = true → word_at rest = false →
  match strip_prefix c' (c +:+ rest) with
  | Some r => f (word_at r) | None => false end
  = match strip_prefix c' c with
    | Some r => f (word_at r) | None => false end.
Proof.
  intros Hc' Hrest. revert c.
  induction c' as [|a c' IH]; intros c.
  - cbn [strip_prefix]. destruct c as [|b c]; [|done].
    rewrite sapp_nil_l. by rewrite Hrest.
  - simpl in Hc'. apply andb_true_iff in Hc' as [Ha Hc'].
    cbn [strip_prefix]. destruct c as [|b c].
    + rewrite sapp_nil_l. destruct rest as [|b rest]; [done|].
      simpl in Hrest. destruct (Ascii.eqb_spec a b) as [->|]; [congruence|done].
    + rewrite sapp_cons. destruct (Ascii.eqb a b); [by apply IH|done].
Qed.

Lemma anchored_app (c' c rest : string) :
  all_chars is_word c' = true → word_at rest = false →
  anchored c' (c +:+ rest) = anchored c' c.
Proof. intros. unfold anchored. by apply after_prefix_app. Qed.

Lemma anchored_slash (c' c rest : string) :
  head_in is_word c = true → anchored ("/" +:+ c') (c +:+ rest) = false.
Proof.
  destruct c as [|b c]; [done|]. simpl. intros Hb.
  unfold anchored. change ("/" +:+ c') with (String "/" c').
  rewrite sapp_cons. cbn [strip_prefix].
  destruct (Ascii.eqb_spec "/" b) as [<-|]; [done|done].
Qed.

Lemma find_ext {X} (f g : X -> bool) (l : list X) :
  Forall (fun x => f x = g x) l → find f l = find g l.
Proof. induction 1 as [|x l Hx Hl IH]; [done|]. simpl. by rewrite Hx, IH. Qed.

Lemma shell_commands_words :
  Forall (fun c => all_chars is_word c = true ∧ head_in is_word c = true)
         shell_commands.
Proof. unfold shell_commands. repeat (constructor; [by vm_compute|]). constructor. Qed.

Lemma shell_commands_self :
  Forall (fun c => find (fun c' => anchored c' c) shell_commands = Some c)
         shell_commands.
Proof. unfold shell_commands. repeat (constructor; [by vm_compute|]). constructor. Qed.

(** X10: a command text that begins with a name of the vocabulary, followed
    by the end of the text or by a character that is not a letter, digit or
    underscore, resolves to that very name, whatever the order of the
    vocabulary: [python3 x] is counted as [python3] although [python] comes
    first, [pip3] as [pip3]. *)
Theorem vocabulary_resolves_to_itself (c rest : string) :
  c ∈ shell_commands → word_at rest = false → resolve (c +:+ rest) = Some c.
Proof.
  intros Hc Hrest. unfold resolve.
  pose proof shell_commands_words as Hw. rewrite Forall_forall in Hw.
  pose proof shell_commands_self as Hs. rewrite Forall_forall in Hs.
  destruct (Hw c Hc) as [_ Hhead].
  rewrite (find_ext _ (fun c' => anchored c' c)).
  - by rewrite (Hs c Hc).
  - apply Forall_forall. intros c' Hc'. destruct (Hw c' Hc') as [Hall _].
    by rewrite shell_pattern_anchored, anchored_app, anchored_slash, orb_false_r.
Qed.

Lemma vocabulary_resolves_witness :
  resolve "python3.11 -m pytest" = Some "python3".
Proof.
  apply (vocabulary_resolves_to_itself "python3" ".11 -m pytest").
  - unfold shell_commands. right. left.
  - reflexivity.
Defined.

(** ** Only the first word of a command decides its name *)

Lemma after_prefix_run (f : bool -> bool) (c s : string) :
  all_chars not_space c = true →
  match strip_prefix c s with
  | Some r => f (word_at r) | None => false end
  = match strip_prefix c (take_run not_space s) with
    | Some r => f (word_at r) | None => false end.
Proof.
  intros Hc. revert s. induction c as [|x c IH]; intros s.
  - cbn [strip_prefix]. destruct s as [|a s]; [done|]. cbn [take_run].
    unfold not_space. destruct (is_space a) eqn:Ha; [|done].
    simpl. by rewrite (space_not_word _ Ha).
  - simpl in Hc. apply andb_true_iff in Hc as [Hx Hc].
    destruct s as [|a s]; [done|]. cbn [take_run strip_prefix].
    destruct (not_space a) eqn:Ha.
    + cbn [strip_prefix]. destruct (Ascii.eqb x a); [by apply IH|done].
    + destruct (Ascii.eqb_spec x a) as [->|]; [congruence|done].
Qed.

Lemma take_run_idem (c : ascii -> bool) (s : string) :
  take_run c (take_run c s) = take_run c s.
Proof.
  induction s as [|a s IH]; [done|]. simpl.
  destruct (c a) eqn:E; [|done]. simpl. by rewrite E, IH.
Qed.

Lemma anchored_run (c s : string) :
  all_chars not_space c = true →
  anchored c (take_run not_space s) = anchored c s.
Proof. intros Hc. unfold anchored. symmetry. by apply after_prefix_run. Qed.

Lemma shell_commands_no_space :
  Forall (fun c => all_chars not_space c = true
                   ∧ all_chars not_space ("/" +:+ c) = true) shell_commands.
Proof. unfold shell_commands. repeat (constructor; [by vm_compute|]). constructor. Qed.

Lemma first_word_head (part : string) :
  head_in is_space part = false → first_word part = take_run not_space part.
Proof. intros H. by rewrite first_word_run, lstrip_id. Qed.

Lemma take_run_head (s : string) :
  head_in is_space (take_run not_space s) = false.
Proof.
  destruct s as [|a s]; [done|]. simpl. unfold not_space.
  destruct (is_space a) eqn:E; [done|]. simpl. done.
Qed.

Lemma resolve_first_word (part : string) :
  head_in is_space part = false → resolve part = resolve (first_word part).
Proof.
  intros Hh. rewrite (first_word_head _ Hh). unfold resolve.
  rewrite (find_ext
             (fun c => re_search (shell_pattern c) (take_run not_space part))
             (fun c => re_search (shell_pattern c) part)).
  - rewrite (first_word_head (take_run not_space part)) by apply take_run_head.
    rewrite take_run_idem, (first_word_head _ Hh).
    destruct part as [|a part]; [done|]. simpl in Hh.
    cbn [take_run nonempty]. unfold not_space. by rewrite Hh.
  - pose proof shell_commands_no_space as H. rewrite Forall_forall in H.
    apply Forall_forall. intros c Hc. destruct (H c Hc) as [H1 H2].
    by rewrite !shell_pattern_anchored, !anchored_run.
Qed.

(** X11: for an action that does not start with [str_replace_editor] and
    has no [" && "], only the first whitespace-delimited word decides what
    is counted: the counts change as they would for that word alone;
    arguments, pipes and later words never matter. *)
Theorem first_word_decides (m : gmap string nat) (a : string) :
  startswith "str_replace_editor" a = false →
  contains " && " (strip a) = false →
  count_action m a = count_command m (first_word a).
Proof.
  intros He Hc. rewrite (count_action_shell m a He Hc). unfold count_command.
  rewrite resolve_first_word.
  - by rewrite first_word_of_action.
  - unfold first_stage. destruct (contains " | " (strip a)); apply strip_head.
Qed.

Lemma first_word_decides_witness :
  count_action ∅ "  /usr/local/bin/ruff check src | tee out.txt "
  = {[ "ruff" := 1 ]}.
Proof.
  rewrite (first_word_decides ∅ "  /usr/local/bin/ruff check src | tee out.txt "
             eq_refl eq_refl).
  vm_compute. reflexivity.
Defined.

(** ** Invariants of the table of counts *)

Lemma basename_no_slash_in (s : string) : has_slash (basename s) = false.
Proof.
  induction s as [|c s IH]; [done|]. cbn [basename].
  destruct (has_slash (String c s)) eqn:E; done.
Qed.

Lemma basename_all (c : ascii -> bool) (s : string) :
  all_chars c s = true → all_chars c (basename s) = true.
Proof.
  induction s as [|a s IH]; [done|]. cbn [basename]. intros H.
  destruct (has_slash (String a s)); [|done].
  simpl in H. apply andb_true_iff in H as [_ H]. by apply IH.
Qed.

Lemma first_word_no_space (s : string) : all_chars not_space (first_word s) = true.
Proof. rewrite first_word_run. apply take_run_all. Qed.

Lemma shell_commands_keys :
  Forall (fun c => has_slash c = false ∧ all_chars not_space c = true)
         shell_commands.
Proof. unfold shell_commands. repeat (constructor; [by vm_compute|]). constructor. Qed.

Lemma editor_commands_keys :
  Forall (fun cmd => has_slash ("str_replace_editor_" +:+ cmd) = false
                     ∧ all_chars not_space ("str_replace_editor_" +:+ cmd) = true)
         editor_commands.
Proof. unfold editor_commands. repeat (constructor; [by vm_compute|]). constructor. Qed.

(** A key of the table: no slash and no whitespace. *)
Lemma resolve_key (part k : string) :
  resolve part = Some k → has_slash k = false ∧ all_chars not_space k = true.
Proof.
  unfold resolve.
  destruct (find _ shell_commands) as [c|] eqn:E.
  - intros [= <-]. apply find_some in E as [Hin _].
    pose proof shell_commands_keys as H. rewrite Forall_forall in H.
    apply H. by apply list_elem_of_In.
  - destruct (nonempty part); [|done]. cbv zeta.
    destruct (nonempty (first_word part) && negb (startswith "-" (first_word part)));
      [|done].
    intros [= <-]. split; [apply basename_no_slash_in|].
    apply basename_all, first_word_no_space.
Qed.

Lemma count_action_invariant (P : gmap string nat -> Prop) :
  (∀ k m, has_slash k = false → all_chars not_space k = true →
          P m → P (incr k m)) →
  ∀ m a, P m → P (count_action m a).
Proof.
  intros Hincr.
  assert (Hcmd : ∀ m part, P m → P (count_command m part)).
  { intros m part Hm. unfold count_command.
    destruct (resolve part) as [k|] eqn:E; [|done].
    destruct (resolve_key _ _ E). by apply Hincr. }
  intros m a Hm. unfold count_action.
  destruct (negb (nonempty a)); [done|].
  destruct (startswith "str_replace_editor" a).
  - unfold count_editor.
    destruct (find _ editor_commands) as [cmd|] eqn:E; [|done].
    apply find_some in E as [Hin _].
    assert (has_slash ("str_replace_editor_" +:+ cmd) = false
            ∧ all_chars not_space ("str_replace_editor_" +:+ cmd) = true) as [? ?].
    { pose proof editor_commands_keys as H. rewrite Forall_forall in H.
      apply H. by apply list_elem_of_In. }
    by apply Hincr.
  - destruct (contains " && " (strip a)); [|by apply Hcmd].
    generalize (split_on " && " (strip a)). intros parts.
    revert m Hm. induction parts as [|p parts IH]; intros m Hm; [done|].
    simpl. apply IH. by apply Hcmd.
Qed.

Lemma locate_tool_use_invariant (P : gmap string nat -> Prop) :
  (∀ k m, has_slash k = false → all_chars not_space k = true →
          P m → P (incr k m)) →
  P ∅ → ∀ trajectory, P (locate_tool_use trajectory).
Proof.
  intros Hincr H0 trajectory. unfold locate_tool_use.
  generalize (∅ : gmap string nat) H0.
  induction trajectory as [|st t IH]; intros m Hm; [done|].
  simpl. apply IH. unfold count_step. by apply count_action_invariant.
Qed.

(** X12: every key of the table that [locate_tool_use] returns is free of
    slashes and of whitespace: a path in front of a command never reaches
    the table. *)
Theorem tool_keys_are_base_names (trajectory : list step) (k : string) :
  is_Some (locate_tool_use trajectory !! k) →
  has_slash k = false ∧ all_chars not_space k = true.
Proof.
  revert k.
  apply (locate_tool_use_invariant
           (fun m => ∀ k, is_Some (m !! k) →
                          has_slash k = false ∧ all_chars not_space k = true)).
  - intros k m Hs Ha Hm j Hj. unfold incr in Hj.
    destruct (decide (k = j)) as [<-|Hne]; [done|].
    rewrite lookup_insert_ne in Hj by done. by apply Hm.
  - intros k [v Hv]. by rewrite lookup_empty in Hv.
Qed.

Lemma tool_keys_witness :
  has_slash "pytest" = false ∧ all_chars not_space "pytest" = true.
Proof.
  apply (tool_keys_are_base_names [ step_of "/opt/venv/bin/pytest -x tests" "" ]).
  vm_compute. eexists. reflexivity.
Defined.

(** X13: the table that [locate_tool_use] returns has no entry with count
    zero: every command in it was seen at least once. *)
Theorem tool_counts_positive (trajectory : list step) (k : string) (v : nat) :
  locate_tool_use trajectory !! k = Some v → 1 ≤ v.
Proof.
  revert k v.
  apply (locate_tool_use_invariant
           (fun m => ∀ k v, m !! k = Some v → 1 ≤ v)).
  - intros k m _ _ Hm j v Hj. unfold incr in Hj.
    destruct (decide (k = j)) as [<-|Hne].
    + rewrite lookup_insert_eq in Hj. injection Hj as <-. lia.
    + rewrite lookup_insert_ne in Hj by done. by eapply Hm.
  - intros k v Hv. by rewrite lookup_empty in Hv.
Qed.

Lemma tool_counts_positive_witness : 1 ≤ 2.
Proof.
  apply (tool_counts_positive [ step_of "ls" ""; step_of "ls -la | wc -l" "" ] "ls").
  vm_compute. reflexivity.
Defined.

Lemma total_count_comm (j1 j2 : string) (z1 z2 y : nat) :
  z1 + (z2 + y) = z2 + (z1 + y).
Proof. lia. Qed.

Lemma total_count_incr (k : string) (m : gmap string nat) :
  total_count (incr k m) = S (total_count m).
Proof.
  unfold total_count, incr. destruct (m !! k) as [v|] eqn:E; simpl.
  - rewrite <- insert_delete_eq.
    rewrite map_fold_insert_L;
      [|intros; apply total_count_comm; done|apply lookup_delete_eq].
    rewrite (map_fold_delete_L _ _ k v m);
      [|intros; apply total_count_comm; done|done].
    lia.
  - rewrite map_fold_insert_L; [|intros; apply total_count_comm; done|done].
    done.
Qed.

Lemma total_count_empty : total_count ∅ = 0.
Proof. unfold total_count. apply map_fold_empty. Qed.

Lemma total_count_keys (m : gmap string nat) (ks : list string) :
  total_count (foldl (fun counts k => incr k counts) m ks)
  = total_count m + length ks.
Proof.
  revert m. induction ks as [|k ks IH]; intros m; simpl; [lia|].
  rewrite IH, total_count_incr. lia.
Qed.

Lemma count_step_total (m : gmap string nat) (st : step) :
  total_count (count_step m st) ≤ total_count m + chain_parts st
  ∧ (contains " && " (strip (action_text st)) = false →
     total_count (count_step m st) ≤ total_count m + 1).
Proof.
  unfold count_step, chain_parts. fold (action_text st). split.
  - destruct (count_action_keys m (action_text st)) as (ks & -> & Hlen).
    rewrite total_count_keys. lia.
  - intros Hc.
    destruct (count_action_single m (action_text st) (or_intror Hc)) as [->|[k ->]];
      [lia|]. rewrite total_count_incr. lia.
Qed.

(** X14: the sum of all counts is at most the number of parts of the [&&]
    chains of the actions: every step contributes at most one count per
    part.  When no action has a [" && "], the sum is at most the number of
    steps. *)
Theorem total_count_bound (trajectory : list step) :
  total_count (locate_tool_use trajectory)
  ≤ sum_list (map chain_parts trajectory)
  ∧ (Forall (fun st => contains " && " (strip (action_text st)) = false)
            trajectory →
     total_count (locate_tool_use trajectory) ≤ length trajectory).
Proof.
  unfold locate_tool_use. rewrite <- (Nat.add_0_l (sum_list _)).
  rewrite <- (Nat.add_0_l (length trajectory)), <- total_count_empty.
  generalize (∅ : gmap string nat).
  induction trajectory as [|st t IH]; intros m; simpl.
  - split; [lia|intros _; lia].
  - destruct (IH (count_step m st)) as [IH1 IH2].
    destruct (count_step_total m st) as [H1 H2]. split; [lia|].
    intros HF. apply Forall_cons in HF as [Hst Ht].
    specialize (IH2 Ht). specialize (H2 Hst). lia.
Qed.

Lemma total_count_bound_witness :
  total_count (locate_tool_use [ step_of "ls | wc" ""; step_of "-v" "" ]) ≤ 2.
Proof.
  apply (proj2 (total_count_bound [ step_of "ls | wc" ""; step_of "-v" "" ])).
  repeat constructor.
Defined.

(** ** Finding trajectory files *)

Lemma split_go_no_sep (sep cur s : string) :
  contains sep s = false → split_go sep 0 cur s = [String.rev cur +:+ s].
Proof.
  revert cur. induction s as [|c s IH]; intros cur; cbn [contains split_go].
  - intros _. by rewrite sapp_nil_r.
  - intros H. apply orb_false_iff in H as [-> H].
    rewrite (IH _ H), rev_cons, sapp_assoc. done.
Qed.

Lemma path_join_endswith (a b : string) : endswith b (path_join a b) = true.
Proof.
  unfold path_join. destruct (startswith "/" b).
  - rewrite <- (sapp_nil_l b) at 2. apply endswith_app.
  - destruct (negb (nonempty a) || endswith "/" a).
    + apply endswith_app.
    + rewrite <- sapp_assoc. apply endswith_app.
Qed.

Lemma find_in_dirs_sound (fs : filesystem) (instance_id p : string)
    (dirs : list string) :
  find_in_dirs fs instance_id dirs = Some p →
  ∃ search_dir, search_dir ∈ dirs
    ∧ isdir fs (path_join search_dir instance_id) = true
    ∧ exists_path fs p = true
    ∧ p = path_join (path_join search_dir instance_id) (traj_name instance_id).
Proof.
  induction dirs as [|sd dirs IH]; [done|]. cbn [find_in_dirs]. cbv zeta.
  destruct (isdir fs (path_join sd instance_id)) eqn:Hd.
  - destruct (exists_path fs (path_join (path_join sd instance_id)
                                        (traj_name instance_id))) eqn:He.
    + intros [= <-]. exists sd. split; [by left|done].
    + intros H. destruct (IH H) as (sd' & Hin & H').
      exists sd'. split; [by right|done].
  - intros H. destruct (IH H) as (sd' & Hin & H').
    exists sd'. split; [by right|done].
Qed.

Lemma find_in_dirs_complete (fs : filesystem) (instance_id search_dir : string)
    (dirs : list string) :
  search_dir ∈ dirs →
  isdir fs (path_join search_dir instance_id) = true →
  exists_path fs (path_join (path_join search_dir instance_id)
                            (traj_name instance_id)) = true →
  is_Some (find_in_dirs fs instance_id dirs).
Proof.
  intros Hin Hd He. induction dirs as [|sd dirs IH]; [by apply elem_of_nil in Hin|].
  cbn [find_in_dirs]. cbv zeta.
  destruct (decide (search_dir = sd)) as [->|Hne].
  - rewrite Hd, He. by eexists.
  - apply elem_of_cons in Hin as [?|Hin]; [done|].
    destruct (isdir fs (path_join sd instance_id)); [|by apply IH].
    destruct (exists_path fs (path_join (path_join sd instance_id)
                                        (traj_name instance_id)));
      [by eexists|by apply IH].
Qed.

Lemma find_trajectory_file_cases (fs : filesystem)
    (script_dir instance_id p : string) :
  find_trajectory_file fs script_dir instance_id = Some p →
  exists_path fs p = true
  ∧ (p = path_join (path_join script_dir instance_id) (traj_name instance_id)
       ∧ isdir fs (path_join script_dir instance_id) = true
     ∨ p = path_join script_dir (traj_name instance_id)
     ∨ ∃ search_dir, search_dir ∈ search_dirs script_dir
         ∧ isdir fs (path_join search_dir instance_id) = true
         ∧ p = path_join (path_join search_dir instance_id)
                         (traj_name instance_id)).
Proof.
  unfold find_trajectory_file. cbv zeta. intros H.
  destruct (isdir fs (path_join script_dir instance_id)) eqn:Hd.
  - destruct (exists_path fs (path_join (path_join script_dir instance_id)
                                        (traj_name instance_id))) eqn:He.
    + injection H as <-. split; [done|]. by left.
    + destruct (exists_path fs (path_join script_dir (traj_name instance_id)))
        eqn:He2.
      * injection H as <-. split; [done|]. right. by left.
      * apply find_in_dirs_sound in H as (sd & Hin & Hsd & Hp & ->).
        split; [done|]. right. right. by exists sd.
  - destruct (exists_path fs (path_join script_dir (traj_name instance_id)))
      eqn:He2.
    + injection H as <-. split; [done|]. right. by left.
    + apply find_in_dirs_sound in H as (sd & Hin & Hsd & Hp & ->).
      split; [done|]. right. right. by exists sd.
Qed.

(** X15: a path that [find_trajectory_file] returns exists, its name is the
    instance identifier followed by [.traj], and it is one of the four
    places the function looks at: the instance folder of the script
    directory, the script directory itself, or the instance folder of one
    of the two fallback directories. *)
Theorem find_trajectory_file_sound (fs : filesystem)
    (script_dir instance_id p : string) :
  find_trajectory_file fs script_dir instance_id = Some p →
  exists_path fs p = true
  ∧ endswith (instance_id +:+ ".traj") p = true
  ∧ (p = path_join (path_join script_dir instance_id) (traj_name instance_id)
       ∧ isdir fs (path_join script_dir instance_id) = true
     ∨ p = path_join script_dir (traj_name instance_id)
     ∨ ∃ search_dir, search_dir ∈ search_dirs script_dir
         ∧ isdir fs (path_join search_dir instance_id) = true
         ∧ p = path_join (path_join search_dir instance_id)
                         (traj_name instance_id)).
Proof.
  intros H. destruct (find_trajectory_file_cases _ _ _ _ H) as [He Hc].
  split; [done|]. split; [|done].
  destruct Hc as [[-> _]|[->|(sd & _ & _ & ->)]];
    apply (path_join_endswith _ (traj_name instance_id)).
Qed.

Lemma find_trajectory_file_witness :
  exists_path example_fs "/w/claude-sonnet-trajs/c__3/c__3.traj" = true
  ∧ endswith "c__3.traj" "/w/claude-sonnet-trajs/c__3/c__3.traj" = true.
Proof.
  destruct (find_trajectory_file_sound example_fs "/w" "c__3"
              "/w/claude-sonnet-trajs/c__3/c__3.traj") as (He & Hn & _).
  - vm_compute. reflexivity.
  - split; [exact He|exact Hn].
Defined.

(** X16: [find_trajectory_file] returns [None] exactly when the trajectory
    file is in none of the four places; in an instance folder it counts
    only if that folder is a directory. *)
Theorem find_trajectory_file_none (fs : filesystem)
    (script_dir instance_id : string) :
  find_trajectory_file fs script_dir instance_id = None
  ↔ (isdir fs (path_join script_dir instance_id) = true →
     exists_path fs (path_join (path_join script_dir instance_id)
                               (traj_name instance_id)) = false)
    ∧ exists_path fs (path_join script_dir (traj_name instance_id)) = false
    ∧ (∀ search_dir, search_dir ∈ search_dirs script_dir →
         isdir fs (path_join search_dir instance_id) = true →
         exists_path fs (path_join (path_join search_dir instance_id)
                                   (traj_name instance_id)) = false).
Proof.
  split.
  - unfold find_trajectory_file. cbv zeta. intros H.
    assert (Hroot : exists_path fs (path_join script_dir (traj_name instance_id))
                    = false
                    ∧ find_in_dirs fs instance_id (search_dirs script_dir) = None
                    ∧ (isdir fs (path_join script_dir instance_id) = true →
                       exists_path fs (path_join (path_join script_dir instance_id)
                                                 (traj_name instance_id)) = false)).
    { destruct (isdir fs (path_join script_dir instance_id));
        [destruct (exists_path fs (path_join (path_join script_dir instance_id)
                                             (traj_name instance_id))); [done|]|];
        (destruct (exists_path fs (path_join script_dir (traj_name instance_id)));
         [done|]); done. }
    destruct Hroot as (H2 & Hf & H1). split; [done|]. split; [done|].
    intros sd Hin Hd.
    destruct (exists_path fs (path_join (path_join sd instance_id)
                                        (traj_name instance_id))) eqn:He; [|done].
    destruct (find_in_dirs_complete fs instance_id sd _ Hin Hd He) as [p Hp].
    congruence.
  - intros (H1 & H2 & H3).
    destruct (find_trajectory_file fs script_dir instance_id) as [p|] eqn:E;
      [|done].
    apply find_trajectory_file_cases in E as (He & [[-> Hd]|[->|(sd & Hin & Hd & ->)]]).
    + rewrite (H1 Hd) in He. done.
    + rewrite H2 in He. done.
    + rewrite (H3 sd Hin Hd) in He. done.
Qed.

Lemma find_trajectory_file_none_witness :
  find_trajectory_file example_fs "/w" "a__1" = None.
Proof.
  apply (find_trajectory_file_none example_fs "/w" "a__1").
  split; [|split].
  - intros _. reflexivity.
  - reflexivity.
  - intros sd Hin _. unfold search_dirs in Hin.
    repeat (apply elem_of_cons in Hin as [->|Hin]; [reflexivity|]).
    by apply elem_of_nil in Hin.
Defined.

(** ** Listing the instances *)

Lemma fallback_instance_ids_elem (fs : filesystem) (dirs : list string)
    (acc ids : list string) (id : string) :
  fallback_instance_ids fs dirs acc = Some ids →
  id ∈ ids →
  id ∈ acc
  ∨ ∃ search_dir, search_dir ∈ dirs
      ∧ exists_path fs search_dir = true
      ∧ isdir fs (path_join search_dir id) = true
      ∧ has_traj_file fs search_dir id = true.
Proof.
  revert acc. induction dirs as [|sd dirs IH]; intros acc; cbn [fallback_instance_ids].
  - intros [= <-] Hin. by left.
  - destruct (exists_path fs sd) eqn:He; cbn [negb].
    + destruct (listdir fs sd) as [items|]; [|done]. cbn [mbind option_bind].
      intros H Hin. destruct (IH _ H Hin) as [Hacc|(sd' & Hsd' & H')].
      * apply elem_of_app in Hacc as [Hacc|Hacc]; [by left|].
        right. exists sd. split; [by left|]. split; [done|].
        apply list_elem_of_In, filter_In in Hacc as [_ Hf].
        by apply andb_true_iff in Hf.
      * right. exists sd'. split; [by right|done].
    + intros H Hin. destruct (IH _ H Hin) as [Hacc|(sd' & Hsd' & H')];
        [by left|].
      right. exists sd'. split; [by right|done].
Qed.

Lemma fallback_instance_ids_total (fs : filesystem) (dirs : list string)
    (acc : list string) :
  (∀ search_dir, search_dir ∈ dirs → exists_path fs search_dir = true →
                 is_Some (listdir fs search_dir)) →
  is_Some (fallback_instance_ids fs dirs acc).
Proof.
  revert acc. induction dirs as [|sd dirs IH]; intros acc H;
    cbn [fallback_instance_ids]; [by eexists|].
  assert (Hrec : ∀ acc', is_Some (fallback_instance_ids fs dirs acc')).
  { intros acc'. apply IH. intros sd' Hin. apply H. by right. }
  destruct (exists_path fs sd) eqn:He; cbn [negb]; [|apply Hrec].
  destruct (H sd (list_elem_of_here _ _) He) as [items ->]. apply Hrec.
Qed.

Lemma root_instance_ids_elem (fs : filesystem) (script_dir id : string)
    (items : list string) :
  id ∈ root_instance_ids fs script_dir items →
  isdir fs (path_join script_dir id) = true
  ∧ contains "__" id = true
  ∧ has_traj_file fs script_dir id = true.
Proof.
  unfold root_instance_ids. intros H.
  apply list_elem_of_In, filter_In in H as [_ H].
  apply andb_true_iff in H as [H H3]. apply andb_true_iff in H as [H1 H2].
  done.
Qed.

(** Where an identifier of the result comes from. *)
Lemma get_all_instance_ids_elem (fs : filesystem) (script_dir : string)
    (ids : list string) (id : string) :
  get_all_instance_ids fs script_dir = Some ids →
  id ∈ ids →
  (isdir fs (path_join script_dir id) = true
   ∧ contains "__" id = true
   ∧ has_traj_file fs script_dir id = true)
  ∨ ∃ search_dir, search_dir ∈ search_dirs script_dir
      ∧ exists_path fs search_dir = true
      ∧ isdir fs (path_join search_dir id) = true
      ∧ has_traj_file fs search_dir id = true.
Proof.
  unfold get_all_instance_ids.
  destruct (listdir fs script_dir) as [items|]; [|done]. cbn [mbind option_bind].
  cbv zeta. case_bool_decide as Hroot.
  - rewrite Hroot.
    destruct (fallback_instance_ids fs (search_dirs script_dir) [])
      as [ids'|] eqn:E; [|done].
    cbn [mbind option_bind]. intros [= <-] Hin.
    unfold sorted in Hin. rewrite merge_sort_Permutation in Hin.
    destruct (fallback_instance_ids_elem _ _ _ _ _ E Hin) as [H|H];
      [by apply elem_of_nil in H|by right].
  - cbn [mbind option_bind]. intros [= <-] Hin.
    unfold sorted in Hin. rewrite merge_sort_Permutation in Hin.
    left. by eapply root_instance_ids_elem.
Qed.

(** X17: the list that [get_all_instance_ids] returns is in ascending
    order of [str]; every identifier in it names a folder that holds its
    trajectory file, either in the script directory, and then the
    identifier contains ["__"], or in a fallback directory that exists.
    The function returns a list whenever the script directory and every
    existing fallback directory can be listed. *)
Theorem get_all_instance_ids_sorted_valid (fs : filesystem) (script_dir : string) :
  (∀ ids, get_all_instance_ids fs script_dir = Some ids →
     StronglySorted String.le ids
     ∧ ∀ id, id ∈ ids →
         (isdir fs (path_join script_dir id) = true
          ∧ contains "__" id = true
          ∧ has_traj_file fs script_dir id = true)
         ∨ ∃ search_dir, search_dir ∈ search_dirs script_dir
             ∧ exists_path fs search_dir = true
             ∧ isdir fs (path_join search_dir id) = true
             ∧ has_traj_file fs search_dir id = true)
  ∧ (is_Some (listdir fs script_dir) →
     (∀ search_dir, search_dir ∈ search_dirs script_dir →
        exists_path fs search_dir = true → is_Some (listdir fs search_dir)) →
     is_Some (get_all_instance_ids fs script_dir)).
Proof.
  split.
  - intros ids H. split; [|intros id; by apply get_all_instance_ids_elem].
    unfold get_all_instance_ids in H.
    destruct (listdir fs script_dir) as [items|]; [|done].
    cbn [mbind option_bind] in H. cbv zeta in H.
    destruct (if bool_decide (root_instance_ids fs script_dir items = []) then _ else _)
      as [ids'|]; [|done].
    cbn [mbind option_bind] in H. injection H as <-.
    apply StronglySorted_merge_sort; apply _.
  - intros [items Hitems] Hdirs. unfold get_all_instance_ids.
    rewrite Hitems. cbn [mbind option_bind]. cbv zeta.
    case_bool_decide as Hroot; [|by eexists].
    destruct (fallback_instance_ids_total fs (search_dirs script_dir)
                (root_instance_ids fs script_dir items) Hdirs) as [ids ->].
    by eexists.
Qed.

Lemma get_all_instance_ids_witness :
  get_all_instance_ids example_fs "/w" = Some ["b__2"]
  ∧ StronglySorted String.le ["b__2"].
Proof.
  assert (E : get_all_instance_ids example_fs "/w" = Some ["b__2"])
    by (vm_compute; reflexivity).
  split; [exact E|].
  apply (proj1 (get_all_instance_ids_sorted_valid example_fs "/w") _ E).
Defined.

(** X18: every identifier that [get_all_instance_ids] lists is found by
    [find_trajectory_file]: the report never names an instance whose
    trajectory cannot be located. *)
Theorem listed_instances_are_found (fs : filesystem) (script_dir : string)
    (ids : list string) (id : string) :
  get_all_instance_ids fs script_dir = Some ids →
  id ∈ ids →
  is_Some (find_trajectory_file fs script_dir id).
Proof.
  intros H Hin.
  destruct (get_all_instance_ids_elem _ _ _ _ H Hin)
    as [(Hd & _ & He)|(sd & Hsd & _ & Hd & He)];
    unfold find_trajectory_file, has_traj_file in *; cbv zeta.
  - rewrite Hd, He. by eexists.
  - destruct (isdir fs (path_join script_dir id));
      [destruct (exists_path fs (path_join (path_join script_dir id)
                                           (traj_name id))); [by eexists|]|];
      (destruct (exists_path fs (path_join script_dir (traj_name id)));
       [by eexists|]);
      by eapply find_in_dirs_complete.
Qed.

Lemma listed_instances_are_found_witness :
  is_Some (find_trajectory_file example_fs "/w" "b__2").
Proof.
  apply (listed_instances_are_found example_fs "/w" ["b__2"]).
  - vm_compute. reflexivity.
  - constructor.
Defined.

(** ** Editor operations in the search classifier *)

(** X19: wherever [str_replace_editor], whitespace, an operation name and
    whitespace occur in the action: with [str_replace], [create], [insert]
    or [undo_edit] the step is never a search step; with [view] it is a
    search step unless a modification pattern matches as well. *)
Theorem editor_operations_in_search (trajectory : list step) (i : nat)
    (st : step) (op pre ws1 ws2 tail : string) :
  trajectory !! i = Some st →
  action_text st = pre +:+ "str_replace_editor" +:+ ws1 +:+ op +:+ ws2 +:+ tail →
  nonempty ws1 = true → all_chars is_space ws1 = true →
  head_in is_space ws2 = true →
  (op ∈ ["str_replace"; "create"; "insert"; "undo_edit"] →
   i ∉ locate_search trajectory)
  ∧ (op = "view" → is_modification (action_text st) = false →
     i ∈ locate_search trajectory).
Proof.
  intros Hst Ha Hne Hall Hws2. split.
  - intros Hop Hin. apply locate_search_elem in Hin as (st' & Hst' & Hs).
    assert (st' = st) as -> by congruence.
    unfold search_step in Hs. fold (action_text st) in Hs.
    assert (is_modification (action_text st) = true) as Hmod; [|by rewrite Hmod in Hs].
    rewrite Ha. unfold is_modification, code_modification_patterns.
    apply existsb_exists. exists (editor_op op). split.
    + repeat (apply elem_of_cons in Hop as [->|Hop];
              [repeat first [left; reflexivity | right]|]).
      by apply elem_of_nil in Hop.
    + apply editor_op_match; try done.
      repeat (apply elem_of_cons in Hop as [->|Hop]; [done|]).
      by apply elem_of_nil in Hop.
  - intros -> Hmod. apply locate_search_elem. exists st. split; [done|].
    unfold search_step. fold (action_text st). rewrite Hmod.
    unfold is_search_step.
    assert (re_search editor_view_pattern (action_text st) = true) as ->.
    { rewrite Ha. by apply editor_op_match. }
    by rewrite orb_true_r.
Qed.

Lemma editor_operations_witness :
  0 ∉ locate_search
        [ step_of "cd /repo && str_replace_editor  insert /a.py --insert_line 3" "" ].
Proof.
  apply (proj1 (editor_operations_in_search
                  [ step_of "cd /repo && str_replace_editor  insert /a.py --insert_line 3" "" ]
                  0 _ "insert" "cd /repo && " "  " " " "/a.py --insert_line 3"
                  eq_refl eq_refl eq_refl eq_refl eq_refl)).
  right. right. left.
Defined.

(** ** The order of the steps does not matter for the counts *)

Lemma madd_comm (m1 m2 : gmap string nat) : madd m1 m2 = madd m2 m1.
Proof.
  apply map_eq. intros k. unfold madd. rewrite !lookup_union_with.
  destruct (m1 !! k), (m2 !! k); simpl; f_equal; lia.
Qed.

Lemma madd_assoc (m1 m2 m3 : gmap string nat) :
  madd m1 (madd m2 m3) = madd (madd m1 m2) m3.
Proof.
  apply map_eq. intros k. unfold madd. rewrite !lookup_union_with.
  destruct (m1 !! k), (m2 !! k), (m3 !! k); simpl; f_equal; lia.
Qed.

Lemma locate_tool_use_cons (st : step) (t : list step) :
  locate_tool_use (st :: t) = madd (locate_tool_use [st]) (locate_tool_use t).
Proof. apply (locate_tool_use_app [st] t). Qed.

(** X20: the table of counts does not depend on the order of the steps:
    two trajectories with the same steps in a different order give the same
    table. *)
Theorem locate_tool_use_permutation (t1 t2 : list step) :
  t1 ≡ₚ t2 → locate_tool_use t1 = locate_tool_use t2.
Proof.
  induction 1 as [|st t1 t2 Hp IH|s1 s2 t|t1 t2 t3 H12 IH12 H23 IH23].
  - done.
  - by rewrite (locate_tool_use_cons st t1), (locate_tool_use_cons st t2), IH.
  - rewrite (locate_tool_use_cons s2 (s1 :: t)), (locate_tool_use_cons s1 t).
    rewrite (locate_tool_use_cons s1 (s2 :: t)), (locate_tool_use_cons s2 t).
    rewrite !madd_assoc. f_equal. apply madd_comm.
  - by rewrite IH12.
Qed.

Lemma locate_tool_use_permutation_witness :
  locate_tool_use [ step_of "ls" ""; step_of "git status && make" "" ]
  = locate_tool_use [ step_of "git status && make" ""; step_of "ls" "" ].
Proof.
  apply locate_tool_use_permutation. apply perm_swap.
Defined.

(** ** A reproduction step in the table of counts *)

Lemma re_search_at_start (r : regex) (s : string) :
  matches_at r None s = true → re_search r s = true.
Proof. intros H. unfold re_search. destruct s; simpl; by rewrite H. Qed.

Lemma editor_pattern_match (op ws tail : string) :
  head_in not_space op = true → word_before (last_char None op) = true →
  nonempty ws = true → all_chars is_space ws = true →
  word_at tail = false →
  re_search (editor_pattern op) ("str_replace_editor" +:+ ws +:+ op +:+ tail) = true.
Proof.
  intros Hop Hlast Hne Hall Htail.
  apply re_search_at_start, matches_at_true.
  unfold editor_pattern. cbn [cat exec]. rewrite strip_prefix_app.
  destruct ws as [|w ws]; [done|]. simpl in Hall.
  apply andb_true_iff in Hall as [Hw Hall].
  rewrite sapp_cons. cbv beta iota. rewrite Hw.
  apply star_loop_all; [done| |].
  - destruct op as [|o op]; [done|]. rewrite sapp_cons. simpl.
    simpl in Hop. unfold not_space in Hop. by destruct (is_space o).
  - rewrite strip_prefix_app.
    assert (last_char (last_char (Some w) ws) op = last_char None op) as ->.
    { destruct op as [|o op]; [done|]. done. }
    by rewrite Hlast, Htail.
Qed.

(** X21: a step that the reproduction classifier flags adds exactly one
    count to the table: under [str_replace_editor_view] when the pattern
    [str_replace_editor\s+view\b] matches somewhere in the action (the
    operations are tried in the order view, create, ...), and under
    [str_replace_editor_create] otherwise.  The pattern of [create] always
    matches such an action. *)
Theorem reproduction_step_counted_once (m : gmap string nat) (st : step) :
  reproduction_flag st = true →
  re_search (editor_pattern "create") (action_text st) = true
  ∧ count_step m st
    = incr (if re_search (editor_pattern "view") (action_text st)
            then "str_replace_editor_view"
            else "str_replace_editor_create") m.
Proof.
  intros Hf. apply reproduction_flag_true in Hf as (a & Ha & Hr).
  apply is_reproduction_true in Hr as (fp & Hc & _).
  assert (Hfacts : nonempty a = true
                   ∧ startswith "str_replace_editor" a = true
                   ∧ re_search (editor_pattern "create") a = true).
  { destruct Hc as (ws & rest & -> & Hne & Hall & Hfp).
    split; [done|]. split; [apply (startswith_app "str_replace_editor")|].
    apply (editor_pattern_match "create" " " (ws +:+ fp +:+ rest)); try done.
    destruct ws as [|w ws]; [done|]. simpl in Hall.
    apply andb_true_iff in Hall as [Hw _]. rewrite sapp_cons.
    by apply space_not_word. }
  destruct Hfacts as (Hne & Hstart & Hcreate).
  assert (Et : action_text st = a).
  { unfold action_text. rewrite Ha. cbn [get]. unfold or_str. by rewrite Hne. }
  rewrite Et. split; [done|].
  unfold count_step. rewrite Ha. cbn [get]. unfold or_str. rewrite Hne.
  unfold count_action. rewrite Hne, Hstart. cbn [negb].
  unfold count_editor, editor_commands. cbn [find].
  destruct (re_search (editor_pattern "view") a); [done|].
  by rewrite Hcreate.
Qed.

Lemma reproduction_step_counted_witness :
  count_step ∅ (step_of "str_replace_editor create /testbed/repro.py" "")
  = incr "str_replace_editor_create" ∅
  ∧ count_step ∅
      (step_of "str_replace_editor create /testbed/repro.py str_replace_editor view"
               "")
    = incr "str_replace_editor_view" ∅.
Proof.
  split.
  - destruct (reproduction_step_counted_once ∅
                (step_of "str_replace_editor create /testbed/repro.py" ""))
      as [_ E]; [vm_compute; reflexivity|].
    exact E.
  - destruct (reproduction_step_counted_once ∅
                (step_of
                   "str_replace_editor create /testbed/repro.py str_replace_editor view"
                   ""))
      as [_ E]; [vm_compute; reflexivity|].
    exact E.
Defined.
